(** * Fuzzy rule evaluation core (fuzzy_systems.core)

    A shallow embedding of the Python sources

      - core/membership_functions/singleton_mf.py
      - core/linguistic_variables/three_points_lv.py
      - core/linguistic_variables/two_points_lv.py
      - core/rules/fuzzy_rule.py

    Python numbers (ints and floats) are modelled by exact rationals [Qc];
    Python exceptions by the [Raise] constructor of [result]; a [dict] whose
    iteration order is observed (the crisp inputs) by an association list in
    iteration order, every other [dict] by a [gmap]. *)

From Stdlib Require Import QArith Qcanon.
From stdpp Require Import base numbers list strings gmap.
From Stdlib Require Import Lqa.

Open Scope Qc_scope.

(** ** Python runtime *)

(** The built-in exceptions the modelled code can raise. *)
Inductive exn : Type :=
  | AssertionError
  | KeyError
  | IndexError
  | ValueError
  | AttributeError.

(** The outcome of a call: a returned value or a raised exception. *)
Inductive result (A : Type) : Type :=
  | Ok (a : A)
  | Raise (e : exn).
Arguments Ok {A} a.
Arguments Raise {A} e.

Global Instance exn_eq_dec : EqDecision exn.
Proof. solve_decision. Defined.

Global Instance result_eq_dec {A} `{EqDecision A} : EqDecision (result A).
Proof. solve_decision. Defined.

Global Instance result_ret : MRet result := λ A a, Ok a.
Global Instance result_bind : MBind result := λ A B f m,
  match m with
  | Ok a => f a
  | Raise e => Raise e
  end.
Global Instance result_fmap : FMap result := λ A B f m,
  match m with
  | Ok a => Ok (f a)
  | Raise e => Raise e
  end.

(** [returns m] holds when the call ended without an exception. *)
Definition returns {A} (m : result A) : bool :=
  match m with
  | Ok _ => true
  | Raise _ => false
  end.

(** Integer literals and decimal fractions as numbers. *)
Definition num (z : Z) : Qc := Q2Qc (inject_Z z).
Definition frac (n : Z) (d : positive) : Qc := Q2Qc (n # d).

(** [l[i]] for a non-negative index: [IndexError] out of range. *)
Definition getitem {A} (l : list A) (i : nat) : result A :=
  match l !! i with
  | Some x => Ok x
  | None => Raise IndexError
  end.

(** [d[k]] on a dict: [KeyError] when the key is absent. *)
Definition dict_getitem {A} (d : gmap string A) (k : string) : result A :=
  match d !! k with
  | Some x => Ok x
  | None => Raise KeyError
  end.

(** [d[k].append(x)] on a [defaultdict(list)]: a missing key starts from
    the empty list. *)
Definition defaultdict_append {A} (d : gmap string (list A)) (k : string)
    (x : A) : gmap string (list A) :=
  <[k := default [] (d !! k) ++ [x]]> d.

(** [copy.deepcopy] of a sequence of numbers: a new sequence, equal to the
    old one. *)
Definition deepcopy (l : list Qc) : list Qc := l.

(** The built-ins [min] and [max] applied to a sequence, as they are
    passed for the aggregation and implication functions; the first of
    several least (greatest) elements is returned. The rule applies them
    to two-element groups only, never to an empty one. *)
Definition py_min (l : list Qc) : Qc :=
  match l with
  | [] => 0
  | x :: l' => foldl (λ m y, if decide (y < m) then y else m) x l'
  end.
Definition py_max (l : list Qc) : Qc :=
  match l with
  | [] => 0
  | x :: l' => foldl (λ m y, if decide (m < y) then y else m) x l'
  end.

(** ** numpy *)

(** [np.interp] as numpy's C routine computes it for one scalar [x]
    ([arr_interp] with [binary_search_with_guess] and [linear_search] in
    compiled_base.c). Where the routine returns a stored degree (outside
    the samples, at a sample, at the last sample) the model returns the
    same one; on a segment the model has the exact value of the formula,
    which numpy rounds. *)

Module np.

(** [arr[i]] inside the C loop, where [i] is known to be in range. *)
Definition at_ (arr : list Qc) (i : nat) : Qc := default 0 (arr !! i).

(** The number of leading samples not above [key]: one more than the
    index [j] that numpy's sample search returns for a non-decreasing
    [arr] and a key within its range ([arr[j] <= key < arr[j+1]]). *)
Fixpoint linear_search (key : Qc) (arr : list Qc) : nat :=
  match arr with
  | [] => 0%nat
  | p :: arr' =>
      if decide (p ≤ key) then S (linear_search key arr') else 0%nat
  end.

(** [np.interp(x, xp, fp)] for a scalar [x], with the default [left] and
    [right]: piecewise-linear interpolation through the samples, the
    first and last [fp] outside their range. *)
Definition interp (x : Qc) (xp fp : list Qc) : result Qc :=
  let lenxp := length xp in
  if decide (lenxp = 0%nat) then Raise ValueError
  else if decide (length fp ≠ lenxp) then Raise ValueError
  else
    let lval := at_ fp 0 in
    let rval := at_ fp (lenxp - 1) in
    if decide (lenxp = 1%nat) then
      Ok (if decide (x < at_ xp 0) then lval
          else if decide (at_ xp 0 < x) then rval
          else at_ fp 0)
    else if decide (at_ xp (lenxp - 1) < x) then Ok rval
    else if decide (x < at_ xp 0) then Ok lval
    else
      let j := (linear_search x xp - 1)%nat in
      if decide (j = (lenxp - 1)%nat) then Ok (at_ fp j)
      else if decide (at_ xp j = x) then Ok (at_ fp j)
      else
        let slope :=
          (at_ fp (j + 1) - at_ fp j) / (at_ xp (j + 1) - at_ xp j) in
        Ok (slope * (x - at_ xp j) + at_ fp j).

End np.

(** ** Membership functions *)

(** The concrete class of a membership-function object. *)
Inductive MFClass : Type :=
  | FreeShapeMF_class
  | LinPWMF_class
  | SingletonMF_class.

Global Instance MFClass_eq_dec : EqDecision MFClass.
Proof. solve_decision. Defined.

(** A membership-function object: its class and its two sample
    sequences. *)
Record MF : Type := mkMF {
  mf_class : MFClass;
  in_values : list Qc;
  mf_values : list Qc
}.

Global Instance MF_eq_dec : EqDecision MF.
Proof. solve_decision. Defined.

Module MembershipFunction.

(** Modelled from the spec: the base class's [fuzzify] (its file,
    membership_function.py, is not among the sources) is the
    piecewise-linear interpolation of the stored samples, clamped to the
    boundary values outside their range. *)
Definition fuzzify (self : MF) (in_value : Qc) : result Qc :=
  np.interp in_value (in_values self) (mf_values self).

End MembershipFunction.

(** Modelled from the spec: the constructor of [FreeShapeMF]
    (free_shape_mf.py is not among the sources) takes the two sample
    sequences and stores them. *)
Definition FreeShapeMF (in_values mf_values : list Qc) : MF :=
  mkMF FreeShapeMF_class in_values mf_values.

(** Modelled from the spec: the constructor of [LinPWMF]
    (lin_piece_wise_mf.py is not among the sources) takes [[x, y]] points
    and stores their x-sequence and y-sequence in the given order; it
    enforces no ordering of the points. *)
Definition LinPWMF (points : list (Qc * Qc)) : MF :=
  mkMF LinPWMF_class (points.*1) (points.*2).

Module SingletonMF.

(** [SingletonMF.__init__(self, x)]: the base constructor is called
    with the samples [[x, x]] and [[0, 1]]. *)
Definition init (x : Qc) : MF :=
  mkMF SingletonMF_class [x; x] [0; 1].

(** [SingletonMF.fuzzify(self, in_value)] *)
Definition fuzzify (self : MF) (in_value : Qc) : result Qc :=
  x0 ← getitem (in_values self) 0;
  if decide (in_value = x0) then Ok 1 else Ok 0.

End SingletonMF.

(** Method resolution of [mf.fuzzify(in_value)]: [SingletonMF] overrides
    the method, the other classes inherit the base one. *)
Definition MF_fuzzify (mf : MF) (in_value : Qc) : result Qc :=
  match mf_class mf with
  | SingletonMF_class => SingletonMF.fuzzify mf in_value
  | FreeShapeMF_class | LinPWMF_class => MembershipFunction.fuzzify mf in_value
  end.

(** ** Linguistic variables *)

(** Modelled from the spec: a linguistic variable (linguistic_variable.py
    is not among the sources) holds a name and a dict from labels to
    membership functions. *)
Record LV : Type := mkLV {
  name : string;
  ling_values : gmap string MF
}.

Module LinguisticVariable.

(** Modelled from the spec: the constructor stores its two arguments. *)
Definition init (name : string) (ling_values_dict : gmap string MF) : LV :=
  mkLV name ling_values_dict.

(** Modelled from the spec: [lv[label]] resolves the label in the
    variable's dict. *)
Definition getitem (self : LV) (label : string) : result MF :=
  dict_getitem (ling_values self) label.

End LinguisticVariable.

Module ThreePointsLV.

(** [ThreePointsLV.__init__(self, name, p1, p2, p3, n1, n2, n3)]: the
    assertion, then the dict display, whose entries are inserted from left
    to right. *)
Definition init (name : string) (p1 p2 p3 : Qc) (n1 n2 n3 : string)
    : result LV :=
  if decide (p1 < p2 ∧ p2 < p3) then
    let ling_values_dict : gmap string MF :=
      <[n3 := LinPWMF [(p2, 0); (p3, 1)]]>
      (<[n2 := LinPWMF [(p1, 0); (p2, 1); (p3, 0)]]>
      (<[n1 := LinPWMF [(p1, 1); (p2, 0)]]> ∅)) in
    Ok (LinguisticVariable.init name ling_values_dict)
  else Raise AssertionError.

End ThreePointsLV.

Module TwoPointsPDLV.

(** [TwoPointsPDLV.__init__(self, name, p, d, n1, n2)]: the dict display
    and the call of the base constructor, nothing else. *)
Definition init (name : string) (p d : Qc) (n1 n2 : string) : result LV :=
  let ling_values_dict : gmap string MF :=
    <[n2 := LinPWMF [(p, 0); (p + d, 1)]]>
    (<[n1 := LinPWMF [(p, 1); (p + d, 0)]]> ∅) in
  Ok (LinguisticVariable.init name ling_values_dict).

End TwoPointsPDLV.

(** ** Rule elements *)

(** Modelled from the spec: an antecedent (fuzzy_rule_element.py is not
    among the sources) refers to a linguistic variable, one of its labels
    and a negation flag. *)
Module Antecedent.
Record t : Type := init {
  lv_name : LV;
  lv_value : string;
  is_not : bool
}.
End Antecedent.

(** Modelled from the spec: a consequent refers to a linguistic variable
    and one of its labels. *)
Module Consequent.
Record t : Type := init {
  lv_name : LV;
  lv_value : string
}.
End Consequent.

(** ** Fuzzy rules *)

Module FuzzyRule.

(** [FuzzyRule.__init__(self, ants, ant_act_func, cons, impl_func)]: the
    two operators are pairs of a callable on a group of numbers and a
    display name. *)
Record t : Type := init {
  _ants : list Antecedent.t;
  _ant_act_func : (list Qc → Qc) * string;
  _cons : list Consequent.t;
  _impl_func : (list Qc → Qc) * string
}.

Definition antecedents (self : t) : list Antecedent.t := _ants self.
Definition consequents (self : t) : list Consequent.t := _cons self.

(** The inner loop of [fuzzify] (lines 71-81): the scan of the
    antecedents for the variable [lv_name], left at the first match. The
    result is [None] when [lv_exists] stays [False], and otherwise the
    pair of [mf] and [is_not]. *)
Fixpoint find_antecedent (ants : list Antecedent.t) (lv_name : string)
    : result (option (MF * bool)) :=
  match ants with
  | [] => Ok None
  | ant :: ants' =>
      if decide (name (Antecedent.lv_name ant) = lv_name) then
        let lvalue_dict := ling_values (Antecedent.lv_name ant) in
        mf ← dict_getitem lvalue_dict (Antecedent.lv_value ant);
        Ok (Some (mf, Antecedent.is_not ant))
      else find_antecedent ants' lv_name
  end.

(** The outer loop of [fuzzify] (lines 62-89) over the items of
    [crisp_inputs], threading the list [fuzzified_inputs_for_rule]. *)
Fixpoint fuzzify_loop (ants : list Antecedent.t)
    (items : list (string * Qc)) (fuzzified_inputs_for_rule : list Qc)
    : result (list Qc) :=
  match items with
  | [] => Ok fuzzified_inputs_for_rule
  | (lv_name, crisp_input) :: items' =>
      found ← find_antecedent ants lv_name;
      match found with
      | None => fuzzify_loop ants items' fuzzified_inputs_for_rule
      | Some (mf, is_not) =>
          fuzzified_value ←
            np.interp crisp_input (in_values mf) (mf_values mf);
          let fuzzified_value :=
            if (is_not : bool) then 1 - fuzzified_value
            else fuzzified_value in
          fuzzify_loop ants items'
            (fuzzified_inputs_for_rule ++ [fuzzified_value])
      end
  end.

(** [FuzzyRule.fuzzify(self, crisp_inputs)] *)
Definition fuzzify (self : t) (crisp_inputs : list (string * Qc))
    : result (list Qc) :=
  fuzzify_loop (_ants self) crisp_inputs [].

(** The loop of [activate] (lines 102-103) over the indices of
    [range(1, len(fuzzified_inputs))]. *)
Fixpoint activate_loop (ant_act : list Qc → Qc)
    (fuzzified_inputs : list Qc) (indices : list nat) (ant_val : Qc)
    : result Qc :=
  match indices with
  | [] => Ok ant_val
  | i :: indices' =>
      x ← getitem fuzzified_inputs i;
      activate_loop ant_act fuzzified_inputs indices' (ant_act [ant_val; x])
  end.

(** [FuzzyRule.activate(self, fuzzified_inputs)] *)
Definition activate (self : t) (fuzzified_inputs : list Qc) : result Qc :=
  ant_val ← getitem fuzzified_inputs 0;
  activate_loop (_ant_act_func self).1 fuzzified_inputs
    (seq 1 (length fuzzified_inputs - 1)) ant_val.

(** The implicated function of one consequent function (lines
    131-138). *)
Definition implicated (impl_func : list Qc → Qc)
    (antecedents_activation : Qc) (ling_value : MF) : MF :=
  let in_values' := deepcopy (in_values ling_value) in
  let mf_values' :=
    (λ val, impl_func [val; antecedents_activation]) <$>
      mf_values ling_value in
  FreeShapeMF in_values' mf_values'.

(** The loop of [implicate] (lines 125-138), threading the dict
    [implicated_consequents]. *)
Fixpoint implicate_loop (impl_func : list Qc → Qc)
    (antecedents_activation : Qc) (cons : list Consequent.t)
    (implicated_consequents : gmap string (list MF))
    : result (gmap string (list MF)) :=
  match cons with
  | [] => Ok implicated_consequents
  | con :: cons' =>
      ling_value ←
        LinguisticVariable.getitem (Consequent.lv_name con)
          (Consequent.lv_value con);
      implicate_loop impl_func antecedents_activation cons'
        (defaultdict_append implicated_consequents
           (name (Consequent.lv_name con))
           (implicated impl_func antecedents_activation ling_value))
  end.

(** [FuzzyRule.implicate(self, antecedents_activation)] *)
Definition implicate (self : t) (antecedents_activation : Qc)
    : result (gmap string (list MF)) :=
  implicate_loop (_impl_func self).1 antecedents_activation (_cons self) ∅.

(** [label.name] for a label that is a [str]: the type has no such
    attribute. *)
Definition str_name (label : string) : result string :=
  Raise AttributeError.

(** [FuzzyRule.get_output_variable_names(self)] *)
Definition get_output_variable_names (self : t) : result (list string) :=
  mapM (λ con, str_name (Consequent.lv_value con)) (consequents self).

End FuzzyRule.

(** ** Objects and references

    The same [implicate], with the identity of the membership-function
    objects made explicit: the store lists the objects that exist, a
    reference is an index into it, and creating an object appends it. *)

Global Instance MF_inhabited : Inhabited MF :=
  populate (mkMF FreeShapeMF_class [] []).

Module Store.

Abbreviation ref := nat.
Abbreviation t := (list MF).

(** The object behind a reference; references held by live objects
    always point into the store. *)
Definition deref (σ : t) (r : ref) : MF := σ !!! r.

(** A constructor call: the new object gets the next free address. *)
Definition alloc (σ : t) (o : MF) : ref * t := (length σ, σ ++ [o]).

(** A linguistic-variable object: its dict holds references to the
    membership-function objects. *)
Record LVobj : Type := mkLVobj {
  obj_name : string;
  obj_ling_values : gmap string ref
}.

(** A consequent object. *)
Record Cons : Type := mkCons {
  lv_name : LVobj;
  lv_value : string
}.

(** The loop of [implicate] (lines 125-138): it reads the consequent's
    function, builds the implicated [FreeShapeMF] as a new object and
    appends the reference to it to the list at the variable's name. *)
Fixpoint implicate_loop (impl_func : list Qc → Qc)
    (antecedents_activation : Qc) (cons : list Cons)
    (implicated_consequents : gmap string (list ref)) (σ : t)
    : result (gmap string (list ref) * t) :=
  match cons with
  | [] => Ok (implicated_consequents, σ)
  | con :: cons' =>
      r ← dict_getitem (obj_ling_values (lv_name con)) (lv_value con);
      let ling_value := deref σ r in
      let '(r', σ') :=
        alloc σ
          (FuzzyRule.implicated impl_func antecedents_activation ling_value)
      in
      implicate_loop impl_func antecedents_activation cons'
        (defaultdict_append implicated_consequents
           (obj_name (lv_name con)) r') σ'
  end.

(** [FuzzyRule.implicate(self, antecedents_activation)] for a rule with
    the implication operator [impl_func] and the consequents [cons]. *)
Definition implicate (impl_func : (list Qc → Qc) * string)
    (cons : list Cons) (antecedents_activation : Qc) (σ : t)
    : result (gmap string (list ref) * t) :=
  implicate_loop impl_func.1 antecedents_activation cons ∅ σ.

(** The values that the objects of a consequent hold in the store. *)
Definition view_lv (σ : t) (lv : LVobj) : LV :=
  mkLV (obj_name lv) (deref σ <$> obj_ling_values lv).
Definition view (σ : t) (con : Cons) : Consequent.t :=
  Consequent.init (view_lv σ (lv_name con)) (lv_value con).

(** The result dict with every reference replaced by the object behind
    it. *)
Definition read (σ : t) (m : gmap string (list ref))
    : gmap string (list MF) :=
  (λ l : list ref, deref σ <$> l) <$> m.

(** The consequent's label refers to an object of the store. *)
Definition in_store (σ : t) (con : Cons) : Prop :=
  ∃ r, obj_ling_values (lv_name con) !! lv_value con = Some r ∧
       (r < length σ)%nat.

(** [new] is the implicated function of the consequent [con]: a
    [FreeShapeMF] with the inputs of the consequent's function and its
    degrees combined with the activation. *)
Definition implicated_of (impl_func : list Qc → Qc) (a : Qc) (σ : t)
    (con : Cons) (new : MF) : Prop :=
  ∃ r, obj_ling_values (lv_name con) !! lv_value con = Some r ∧
       mf_class new = FreeShapeMF_class ∧
       in_values new = in_values (deref σ r) ∧
       mf_values new = (λ d, impl_func [d; a]) <$> mf_values (deref σ r).

End Store.

(** ** Vocabulary of the statements *)

(** The pairwise combinator that the loop of [activate] applies: the
    aggregation function on the group of the running value and the next
    degree. *)
Definition pairwise (ant_act : list Qc → Qc) (ant_val x : Qc) : Qc :=
  ant_act [ant_val; x].

(** The rule has an antecedent on the variable called [lv_name]. *)
Definition mentions (ants : list Antecedent.t) (lv_name : string) : Prop :=
  Exists (λ ant, name (Antecedent.lv_name ant) = lv_name) ants.

Global Instance mentions_dec ants lv_name : Decision (mentions ants lv_name).
Proof. unfold mentions. apply _. Defined.

(** A membership function [np.interp] accepts: some samples, and as many
    degrees as inputs. *)
Definition sampled (mf : MF) : Prop :=
  in_values mf ≠ [] ∧ length (mf_values mf) = length (in_values mf).

(** The antecedent's label is one of its variable's labels, and the
    function behind it is sampled. *)
Definition resolves (ant : Antecedent.t) : Prop :=
  ∃ mf, ling_values (Antecedent.lv_name ant) !! Antecedent.lv_value ant
          = Some mf ∧ sampled mf.

(** The function behind the consequent's label, when the label is one of
    its variable's labels. *)
Definition consequent_mf (con : Consequent.t) : option MF :=
  ling_values (Consequent.lv_name con) !! Consequent.lv_value con.

(** The consequents on the variable called [k], in declaration order. *)
Definition on_variable (k : string) (cons : list Consequent.t)
    : list Consequent.t :=
  filter (λ con, name (Consequent.lv_name con) = k) cons.

(** [mf'] is the implicated function of the consequent [con]. *)
Definition implicated_from (impl_func : list Qc → Qc) (a : Qc)
    (con : Consequent.t) (mf' : MF) : Prop :=
  FuzzyRule.implicated impl_func a <$> consequent_mf con = Some mf'.

(** ** Worked examples *)

Module Examples.

(** A variable with a single label backed by [SingletonMF(5)]. *)
Definition level : LV :=
  LinguisticVariable.init "level" {[ "five" := SingletonMF.init (num 5) ]}.

(** [IF (level is five)], no consequents. *)
Definition level_rule : FuzzyRule.t :=
  FuzzyRule.init [Antecedent.init level "five" false] (py_min, "AND_min")
    [] (py_min, "min").

(** The dict that [TwoPointsPDLV(name, p, d)] builds, with the default
    labels. *)
Definition two_points (lv_name : string) (p d : Qc) : LV :=
  LinguisticVariable.init lv_name
    (<["high" := LinPWMF [(p, 0); (p + d, 1)]]>
       (<["low" := LinPWMF [(p, 1); (p + d, 0)]]> ∅)).

Definition temperature : LV := two_points "temperature" (num 10) (num 10).
Definition sunshine : LV := two_points "sunshine" 0 (num 100).

(** [IF (temperature is low AND_min temperature is high)] *)
Definition twice_temperature : FuzzyRule.t :=
  FuzzyRule.init
    [Antecedent.init temperature "low" false;
     Antecedent.init temperature "high" false]
    (py_min, "AND_min") [] (py_min, "min").

(** [IF (sunshine is high AND_min temperature is low)] *)
Definition sunny_and_cold : FuzzyRule.t :=
  FuzzyRule.init
    [Antecedent.init sunshine "high" false;
     Antecedent.init temperature "low" false]
    (py_min, "AND_min") [] (py_min, "min").

(** [IF (temperature is NOT high)] *)
Definition not_hot : FuzzyRule.t :=
  FuzzyRule.init [Antecedent.init temperature "high" true]
    (py_min, "AND_min") [] (py_min, "min").

(** A variable [power] with two triangular labels, and a rule with two
    consequents on it. *)
Definition power : LV :=
  LinguisticVariable.init "power"
    (<["high" := LinPWMF [(num 1, 0); (num 2, 1); (num 3, 0)]]>
       (<["low" := LinPWMF [(0, 0); (1, 1); (num 2, 0)]]> ∅)).

Definition two_on_power : FuzzyRule.t :=
  FuzzyRule.init [] (py_min, "AND_min")
    [Consequent.init power "low"; Consequent.init power "high"]
    (py_min, "min").

(** The same variable over a store that holds its two functions. *)
Definition power_store : Store.t :=
  [LinPWMF [(0, 0); (1, 1); (num 2, 0)];
   LinPWMF [(num 1, 0); (num 2, 1); (num 3, 0)]].

Definition power_obj : Store.LVobj :=
  Store.mkLVobj "power" (<["high" := 1%nat]> (<["low" := 0%nat]> ∅)).

End Examples.

(** ** The textual form of a rule *)

(** ["{} is {}".format(lv_name, lv_value)] *)
Definition is_text (lv_name lv_value : string) : string :=
  lv_name +:+ " is " +:+ lv_value.

(** [FuzzyRule.__repr__(self)] (lines 145-156): the antecedents joined by
    the display name of the aggregation operator, the consequents joined
    by a comma, both between blanks. *)
Definition FuzzyRule__repr__ (self : FuzzyRule.t) : string :=
  let ants_text :=
    String.concat (" " +:+ (FuzzyRule._ant_act_func self).2 +:+ " ")
      ((λ a, is_text (name (Antecedent.lv_name a)) (Antecedent.lv_value a))
         <$> FuzzyRule.antecedents self) in
  let cons_text :=
    String.concat (" " +:+ "," +:+ " ")
      ((λ c, is_text (name (Consequent.lv_name c)) (Consequent.lv_value c))
         <$> FuzzyRule.consequents self) in
  "IF (" +:+ ants_text +:+ "), THEN (" +:+ cons_text +:+ ")".

(** ** More vocabulary *)

(** [x] lies between [lo] and [hi]. *)
Definition within (lo hi x : Qc) : Prop := lo ≤ x ∧ x ≤ hi.

(** The rule [IF (lv is label)] or [IF (lv is NOT label)] alone, and what
    it fuzzifies the value [x] of its variable to. *)
Definition rule_on (lv : LV) (label : string) (is_not : bool) : FuzzyRule.t :=
  FuzzyRule.init [Antecedent.init lv label is_not] (py_min, "AND_min")
    [] (py_min, "min").
Definition fuzzify_label (lv : LV) (label : string) (is_not : bool) (x : Qc)
    : result (list Qc) :=
  FuzzyRule.fuzzify (rule_on lv label is_not) [(name lv, x)].

(** The two antecedents name the same variable and the same label. *)
Definition same_text (a b : Antecedent.t) : Prop :=
  name (Antecedent.lv_name a) = name (Antecedent.lv_name b) ∧
  Antecedent.lv_value a = Antecedent.lv_value b.

(** The two consequents name the same variable and the same label. *)
Definition same_conclusion (c d : Consequent.t) : Prop :=
  name (Consequent.lv_name c) = name (Consequent.lv_name d) ∧
  Consequent.lv_value c = Consequent.lv_value d.

(** The consequent's label resolves to a function with as many degrees as
    inputs, and degrees between [lo] and [hi]. *)
Definition bounded_consequent (lo hi : Qc) (con : Consequent.t) : Prop :=
  ∃ mf, consequent_mf con = Some mf ∧ sampled mf ∧
        Forall (within lo hi) (mf_values mf).

(** The two ramps between the points [a < b]: [falling] goes from 1 at [a]
    and before it to 0 at [b] and after it, [rising] from 0 to 1. *)
Definition falling (a b x : Qc) : Qc :=
  if decide (x ≤ a) then 1
  else if decide (b ≤ x) then 0
  else (b - x) / (b - a).
Definition rising (a b x : Qc) : Qc :=
  if decide (x ≤ a) then 0
  else if decide (b ≤ x) then 1
  else (x - a) / (b - a).

(** ** More examples *)

Module MoreExamples.

(** [IF (temperature is warm)], a label the variable does not have. *)
Definition unknown_label : FuzzyRule.t :=
  FuzzyRule.init [Antecedent.init Examples.temperature "warm" false]
    (py_min, "AND_min") [] (py_min, "min").

(** [THEN (power is low, power is medium)], the second label unknown. *)
Definition unknown_consequent : FuzzyRule.t :=
  FuzzyRule.init [] (py_min, "AND_min")
    [Consequent.init Examples.power "low";
     Consequent.init Examples.power "medium"]
    (py_min, "min").

(** The crisp inputs of three variables, one of them not in any rule. *)
Definition weather : list (string * Qc) :=
  [("temperature", num 18); ("wind", num 3); ("sunshine", num 55)].

End MoreExamples.

(** Closed statements are settled by evaluating both sides. *)
Ltac by_evaluation := apply (bool_decide_unpack _); vm_compute; exact I.

(** ** The result monad *)

Lemma result_bind_Ok {A B} (f : A → result B) (a : A) : Ok a ≫= f = f a.
Proof. reflexivity. Qed.

Lemma result_bind_Raise {A B} (f : A → result B) (e : exn) :
  Raise e ≫= f = Raise e.
Proof. reflexivity. Qed.

Lemma result_bind_assoc {A B C} (m : result A) (f : A → result B)
    (g : B → result C) :
  (m ≫= f) ≫= g = m ≫= (λ a, f a ≫= g).
Proof. by destruct m. Qed.

Lemma getitem_lookup {A} (l : list A) (i : nat) (x : A) :
  l !! i = Some x → getitem l i = Ok x.
Proof. unfold getitem. by intros ->. Qed.

(** ** Interpolation *)

(** Sanity checks of the interpolation model on the spec's sample
    function [(0,0), (1,1), (2,0)]. *)
Example interp_samples :
  let mf := FreeShapeMF [0; 1; num 2] [0; 1; 0] in
  MembershipFunction.fuzzify mf (frac 1 2) = Ok (frac 1 2) ∧
  MembershipFunction.fuzzify mf (frac 3 2) = Ok (frac 1 2) ∧
  MembershipFunction.fuzzify mf (num (-1)) = Ok 0 ∧
  MembershipFunction.fuzzify mf (num 3) = Ok 0.
Proof. vm_compute. repeat split; reflexivity. Qed.

(** ** SingletonMF *)

(** C9: a singleton built from [x] stores the samples [[x, x]] and
    [[0, 1]], and its own [fuzzify] returns 1 at an input equal to [x] and
    0 at every other input; the method call [mf.fuzzify(v)] resolves to
    that override. *)
Theorem SingletonMF_fuzzify_indicator (x v : Qc) :
  in_values (SingletonMF.init x) = [x; x] ∧
  mf_values (SingletonMF.init x) = [0; 1] ∧
  SingletonMF.fuzzify (SingletonMF.init x) v
    = Ok (if decide (v = x) then 1 else 0) ∧
  MF_fuzzify (SingletonMF.init x) v = SingletonMF.fuzzify (SingletonMF.init x) v.
Proof.
  repeat split. unfold SingletonMF.fuzzify. simpl.
  by destruct (decide (v = x)).
Qed.

(** The spec's three sample calls on [SingletonMF(5)]. *)
Example SingletonMF_samples :
  SingletonMF.fuzzify (SingletonMF.init (num 5)) (num 5) = Ok 1 ∧
  SingletonMF.fuzzify (SingletonMF.init (num 5)) (frac 50001 10000) = Ok 0 ∧
  SingletonMF.fuzzify (SingletonMF.init (num 5)) (frac 49999 10000) = Ok 0.
Proof. vm_compute. repeat split; reflexivity. Qed.

(** ** FuzzyRule.activate *)

Section Activate.

Variable ant_act : list Qc → Qc.

(** Running the loop over the indices of a suffix folds that suffix. *)
Lemma activate_loop_suffix (done_ todo : list Qc) (ant_val : Qc) :
  FuzzyRule.activate_loop ant_act (done_ ++ todo)
    (seq (length done_) (length todo)) ant_val
  = Ok (foldl (pairwise ant_act) ant_val todo).
Proof.
  revert done_ ant_val.
  induction todo as [|x todo IH]; intros done_ ant_val; [done|].
  cbn [seq length FuzzyRule.activate_loop foldl].
  rewrite (getitem_lookup _ _ x); last first.
  { by rewrite lookup_app_r, Nat.sub_diag. }
  rewrite result_bind_Ok.
  specialize (IH (done_ ++ [x]) (ant_act [ant_val; x])).
  by rewrite length_app, Nat.add_1_r, <-(assoc_L (++)) in IH.
Qed.

End Activate.

(** C2: on a non-empty sequence [activate] returns the left fold of the
    tail under the pairwise aggregation function, started from the first
    element; a one-element sequence yields its element; on the empty
    sequence the call raises ([IndexError]), so it has no result. *)
Theorem activate_left_fold (self : FuzzyRule.t) (d : Qc) (ds : list Qc) :
  FuzzyRule.activate self (d :: ds)
    = Ok (foldl (pairwise (FuzzyRule._ant_act_func self).1) d ds) ∧
  FuzzyRule.activate self [d] = Ok d ∧
  FuzzyRule.activate self [] = Raise IndexError.
Proof.
  split; [|done].
  unfold FuzzyRule.activate. cbn [getitem lookup list_lookup length].
  rewrite result_bind_Ok.
  replace (S (length ds) - 1)%nat with (length ds) by lia.
  apply (activate_loop_suffix _ [d] ds d).
Qed.

(** ** FuzzyRule.fuzzify *)

Lemma interp_returns (x : Qc) (mf : MF) :
  sampled mf → ∃ d, np.interp x (in_values mf) (mf_values mf) = Ok d.
Proof.
  intros [Hne Hlen]. unfold np.interp. cbv zeta.
  destruct (decide (length (in_values mf) = 0%nat)) as [H0|_].
  { by apply length_zero_iff_nil in H0. }
  destruct (decide (length (mf_values mf) ≠ length (in_values mf))); [done|].
  repeat case_decide; eauto.
Qed.

Lemma find_antecedent_unmentioned ants lv_name :
  ¬ mentions ants lv_name → FuzzyRule.find_antecedent ants lv_name = Ok None.
Proof.
  unfold mentions. induction ants as [|ant ants IH]; intros Hno; [done|].
  apply not_Exists_Forall, Forall_cons in Hno as [Hant Hants]; [|apply _].
  simpl in *. rewrite decide_False by done.
  apply IH. by apply Forall_Exists_neg.
Qed.

Lemma find_antecedent_first before ant after lv_name :
  ¬ mentions before lv_name →
  name (Antecedent.lv_name ant) = lv_name →
  FuzzyRule.find_antecedent (before ++ ant :: after) lv_name
  = mf ← dict_getitem (ling_values (Antecedent.lv_name ant))
           (Antecedent.lv_value ant);
    Ok (Some (mf, Antecedent.is_not ant)).
Proof.
  unfold mentions. intros Hno Hant.
  induction before as [|b before IH]; simpl.
  - by rewrite decide_True.
  - apply not_Exists_Forall, Forall_cons in Hno as [Hb Hno]; [|apply _].
    simpl in Hb. rewrite decide_False by done.
    apply IH. by apply Forall_Exists_neg.
Qed.

Lemma find_antecedent_mentioned ants lv_name :
  Forall resolves ants → mentions ants lv_name →
  ∃ mf is_not, FuzzyRule.find_antecedent ants lv_name = Ok (Some (mf, is_not))
               ∧ sampled mf.
Proof.
  unfold mentions. intros Hres Hm.
  induction Hres as [|ant ants (mf & Hmf & Hs) _ IH]; [by inversion Hm|].
  simpl. destruct (decide (name (Antecedent.lv_name ant) = lv_name)) as [_|Hne].
  - unfold dict_getitem. rewrite Hmf. simpl. eauto.
  - apply IH. by inversion Hm.
Qed.

(** Later antecedents on a variable that an earlier one already names do
    not change the outcome of any scan. *)
Lemma find_antecedent_drop_later before ant after lv_name k :
  name (Antecedent.lv_name ant) = k →
  FuzzyRule.find_antecedent (before ++ ant :: after) lv_name
  = FuzzyRule.find_antecedent
      (before ++ ant ::
         filter (λ b, name (Antecedent.lv_name b) ≠ k) after) lv_name.
Proof.
  intros Hant. induction before as [|b before IH]; simpl.
  - destruct (decide (name (Antecedent.lv_name ant) = lv_name)) as [|Hne];
      [done|].
    induction after as [|c after IHa]; [done|].
    rewrite filter_cons. simpl.
    destruct (decide (name (Antecedent.lv_name c) = lv_name)) as [Hc|Hc].
    + rewrite decide_True by congruence. simpl. by rewrite decide_True.
    + case_decide; [simpl; by rewrite decide_False|done].
  - by rewrite IH.
Qed.

Lemma fuzzify_loop_acc ants items acc :
  FuzzyRule.fuzzify_loop ants items acc
  = out ← FuzzyRule.fuzzify_loop ants items []; Ok (acc ++ out).
Proof.
  revert acc. induction items as [|[k v] items IH]; intros acc; simpl.
  { by rewrite app_nil_r. }
  destruct (FuzzyRule.find_antecedent ants k) as [[[mf n]|]|e]; simpl;
    [|apply IH|done].
  destruct (np.interp v (in_values mf) (mf_values mf)) as [d|e]; simpl;
    [|done].
  rewrite (IH (acc ++ _)), (IH [_]), result_bind_assoc.
  destruct (FuzzyRule.fuzzify_loop ants items []); simpl; [|done].
  by rewrite <-(assoc_L (++)).
Qed.

(** The result on a mapping is composed, in iteration order, of the
    results on its parts. *)
Lemma fuzzify_app self xs ys :
  FuzzyRule.fuzzify self (xs ++ ys)
  = o1 ← FuzzyRule.fuzzify self xs;
    o2 ← FuzzyRule.fuzzify self ys; Ok (o1 ++ o2).
Proof.
  unfold FuzzyRule.fuzzify. generalize (FuzzyRule._ants self) as ants.
  intros ants. induction xs as [|[k v] xs IH]; simpl.
  { by destruct (FuzzyRule.fuzzify_loop ants ys []). }
  destruct (FuzzyRule.find_antecedent ants k) as [[[mf n]|]|e]; simpl;
    [|apply IH|done].
  destruct (np.interp v (in_values mf) (mf_values mf)) as [d|e]; simpl;
    [|done].
  rewrite (fuzzify_loop_acc _ (xs ++ ys)), (fuzzify_loop_acc _ xs), IH.
  rewrite !result_bind_assoc.
  destruct (FuzzyRule.fuzzify_loop ants xs []) as [o1|]; simpl; [|done].
  destruct (FuzzyRule.fuzzify_loop ants ys []) as [o2|]; simpl; [|done].
  done.
Qed.

Lemma fuzzify_cons self kv items :
  FuzzyRule.fuzzify self (kv :: items)
  = o1 ← FuzzyRule.fuzzify self [kv];
    o2 ← FuzzyRule.fuzzify self items; Ok (o1 ++ o2).
Proof. apply (fuzzify_app self [kv] items). Qed.

Lemma fuzzify_concat self items :
  FuzzyRule.fuzzify self items
  = @concat Qc <$> mapM (λ kv, FuzzyRule.fuzzify self [kv]) items.
Proof.
  induction items as [|kv items IH]; [done|].
  rewrite fuzzify_cons, IH. simpl.
  destruct (FuzzyRule.fuzzify self [kv]) as [o1|]; simpl; [|done].
  by destruct (mapM _ items).
Qed.

(** What [fuzzify] yields on the one-entry mapping of a variable that no
    antecedent names. *)
Lemma fuzzify_entry_unmentioned self k v :
  ¬ mentions (FuzzyRule._ants self) k → FuzzyRule.fuzzify self [(k, v)] = Ok [].
Proof.
  intros Hno. unfold FuzzyRule.fuzzify. simpl.
  by rewrite find_antecedent_unmentioned.
Qed.

Lemma fuzzify_entry_mentioned self k v :
  Forall resolves (FuzzyRule._ants self) →
  mentions (FuzzyRule._ants self) k →
  ∃ d, FuzzyRule.fuzzify self [(k, v)] = Ok [d].
Proof.
  intros Hres Hm. unfold FuzzyRule.fuzzify. simpl.
  destruct (find_antecedent_mentioned _ _ Hres Hm) as (mf & n & -> & Hs).
  simpl. destruct (interp_returns v mf Hs) as [d ->]. simpl. eauto.
Qed.

(** C7: on a rule whose antecedents resolve, [fuzzify] returns a sequence
    [out] for every input mapping, without an error; [out] has one degree
    per entry whose variable some antecedent names and is the
    concatenation, in the mapping's iteration order, of the results on the
    single entries; an entry whose variable no antecedent names
    contributes nothing, and dropping it leaves the result as it is. *)
Theorem fuzzify_skips_unmatched_in_input_order (self : FuzzyRule.t)
    (crisp_inputs : list (string * Qc)) :
  Forall resolves (FuzzyRule._ants self) →
  ∃ out,
    FuzzyRule.fuzzify self crisp_inputs = Ok out ∧
    length out
      = length (filter (λ kv, mentions (FuzzyRule._ants self) kv.1)
                  crisp_inputs) ∧
    Ok out
      = @concat Qc <$> mapM (λ kv, FuzzyRule.fuzzify self [kv]) crisp_inputs ∧
    (∀ kv, kv ∈ crisp_inputs → mentions (FuzzyRule._ants self) kv.1 →
       ∃ d, FuzzyRule.fuzzify self [kv] = Ok [d]) ∧
    (∀ xs k v ys, crisp_inputs = xs ++ (k, v) :: ys →
       ¬ mentions (FuzzyRule._ants self) k →
       FuzzyRule.fuzzify self [(k, v)] = Ok [] ∧
       FuzzyRule.fuzzify self (xs ++ ys) = Ok out).
Proof.
  intros Hres.
  assert (∃ out, FuzzyRule.fuzzify self crisp_inputs = Ok out ∧
    length out = length (filter (λ kv, mentions (FuzzyRule._ants self) kv.1)
                           crisp_inputs)) as (out & Hout & Hlen).
  { induction crisp_inputs as [|[k v] items (o2 & Ho2 & Hl2)].
    { by exists []. }
    rewrite fuzzify_cons, Ho2, filter_cons. simpl.
    destruct (decide (mentions (FuzzyRule._ants self) k)) as [Hm|Hm].
    - destruct (fuzzify_entry_mentioned self k v Hres Hm) as [d ->].
      exists (d :: o2). simpl. by rewrite Hl2.
    - rewrite (fuzzify_entry_unmentioned self k v Hm). by exists o2. }
  exists out. split_and!; [done|done| | |].
  - by rewrite <-Hout, fuzzify_concat.
  - intros [k v] _ Hm. by apply fuzzify_entry_mentioned.
  - intros xs k v ys -> Hm.
    pose proof (fuzzify_entry_unmentioned self k v Hm) as Hkv.
    split; [done|].
    rewrite fuzzify_app, fuzzify_cons, Hkv in Hout.
    rewrite fuzzify_app.
    destruct (FuzzyRule.fuzzify self xs); [|done].
    by destruct (FuzzyRule.fuzzify self ys).
Qed.

(** C5: when [ant] is the first antecedent on the variable [k], the entry
    of [k] is fuzzified through the function of [ant]: the result is the
    interpolation of the value through the samples behind the label of
    [ant], complemented when [ant] is negated (and the error of that
    look-up or interpolation, when there is one). So it is the result of
    the rule with [ant] alone, and for every input mapping the result is
    the one of the rule without the later antecedents on [k]. *)
Theorem fuzzify_first_match_only (before after : list Antecedent.t)
    (ant : Antecedent.t) (k : string)
    (ant_act_func impl_func : (list Qc → Qc) * string)
    (cons : list Consequent.t) :
  ¬ mentions before k →
  name (Antecedent.lv_name ant) = k →
  let rule ants := FuzzyRule.init ants ant_act_func cons impl_func in
  (∀ v, FuzzyRule.fuzzify (rule (before ++ ant :: after)) [(k, v)]
        = mf ← dict_getitem (ling_values (Antecedent.lv_name ant))
                 (Antecedent.lv_value ant);
          d ← np.interp v (in_values mf) (mf_values mf);
          Ok [if Antecedent.is_not ant then 1 - d else d]) ∧
  (∀ v, FuzzyRule.fuzzify (rule (before ++ ant :: after)) [(k, v)]
        = FuzzyRule.fuzzify (rule [ant]) [(k, v)]) ∧
  (∀ crisp_inputs,
     FuzzyRule.fuzzify (rule (before ++ ant :: after)) crisp_inputs
     = FuzzyRule.fuzzify
         (rule (before ++ ant ::
                  filter (λ b, name (Antecedent.lv_name b) ≠ k) after))
         crisp_inputs).
Proof.
  intros Hno Hant rule. split_and!.
  - intros v. unfold FuzzyRule.fuzzify. simpl.
    rewrite (find_antecedent_first before ant after k Hno Hant).
    destruct (dict_getitem _ _) as [mf|e]; simpl; [|done].
    by destruct (np.interp v (in_values mf) (mf_values mf)).
  - intros v. unfold FuzzyRule.fuzzify. simpl.
    rewrite (find_antecedent_first before ant after k Hno Hant).
    by rewrite decide_True.
  - intros items. unfold FuzzyRule.fuzzify. simpl.
    generalize (@nil Qc) as acc.
    induction items as [|[k' v] items IH]; intros acc; [done|].
    simpl. rewrite <-(find_antecedent_drop_later before ant after k' k Hant).
    destruct (FuzzyRule.find_antecedent _ k') as [[[mf n]|]|e]; simpl;
      [|apply IH|done].
    destruct (np.interp v (in_values mf) (mf_values mf)); simpl; [|done].
    apply IH.
Qed.

(** C8: when the first antecedent on the variable [k] carries the negation
    flag and the interpolation of [v] through its function is [d], the
    degree that [fuzzify] appends for the entry [(k, v)] is [1 - d]. *)
Theorem fuzzify_negation_complements (self : FuzzyRule.t)
    (before after : list Antecedent.t) (ant : Antecedent.t) (mf : MF)
    (k : string) (v d : Qc) (xs ys : list (string * Qc)) :
  FuzzyRule._ants self = before ++ ant :: after →
  ¬ mentions before k →
  name (Antecedent.lv_name ant) = k →
  Antecedent.is_not ant = true →
  ling_values (Antecedent.lv_name ant) !! Antecedent.lv_value ant = Some mf →
  np.interp v (in_values mf) (mf_values mf) = Ok d →
  FuzzyRule.fuzzify self [(k, v)] = Ok [1 - d] ∧
  FuzzyRule.fuzzify self (xs ++ (k, v) :: ys)
  = o1 ← FuzzyRule.fuzzify self xs;
    o2 ← FuzzyRule.fuzzify self ys; Ok (o1 ++ [1 - d] ++ o2).
Proof.
  intros Hants Hno Hant Hnot Hmf Hd.
  assert (FuzzyRule.fuzzify self [(k, v)] = Ok [1 - d]) as Hkv.
  { unfold FuzzyRule.fuzzify. rewrite Hants. simpl.
    rewrite (find_antecedent_first before ant after k Hno Hant).
    unfold dict_getitem. rewrite Hmf. simpl. rewrite Hd. simpl.
    by rewrite Hnot. }
  split; [done|].
  rewrite fuzzify_app, fuzzify_cons, Hkv. simpl.
  destruct (FuzzyRule.fuzzify self xs); simpl; [|done].
  by destruct (FuzzyRule.fuzzify self ys).
Qed.

(** C1 (evaluated on the code): for the rule [IF (level is five)], where
    [five] is [SingletonMF(5)], and the input [{"level": 6}], [fuzzify]
    returns the degree 1: it interpolates the stored samples [[5, 5]],
    [[0, 1]] itself, which gives the last degree to the right of the
    samples. The function's own [fuzzify] method, which the rule never
    calls, returns 0 at 6. At the singleton's point both agree on 1, and
    to its left on 0. *)
Theorem fuzzify_ignores_singleton_override :
  FuzzyRule.fuzzify Examples.level_rule [("level", num 6)] = Ok [1] ∧
  MF_fuzzify (SingletonMF.init (num 5)) (num 6) = Ok 0 ∧
  FuzzyRule.fuzzify Examples.level_rule [("level", num 5)] = Ok [1] ∧
  FuzzyRule.fuzzify Examples.level_rule [("level", num 4)] = Ok [0].
Proof. vm_compute. repeat split; reflexivity. Qed.

(** What the rule computes on a singleton antecedent at every input: the
    step function that is 0 below the singleton's point and 1 from it
    on. *)
Lemma interp_singleton_step (x v : Qc) :
  np.interp v (in_values (SingletonMF.init x)) (mf_values (SingletonMF.init x))
  = Ok (if decide (v < x) then 0 else 1).
Proof.
  unfold np.interp. simpl. unfold np.at_. simpl.
  destruct (decide (x < v)) as [Hxv|Hxv].
  { rewrite decide_False; [done|]. intros Hvx.
    by apply Qclt_le_weak, Qcle_not_lt in Hvx. }
  destruct (decide (v < x)) as [|Hvx]; [done|].
  assert (x ≤ v) as Hle by by apply Qcnot_lt_le.
  by destruct (decide (x ≤ v)).
Qed.

(** ** FuzzyRule.get_output_variable_names *)

(** C10: [get_output_variable_names] returns the empty list for a rule
    without consequents, and raises [AttributeError] for every other rule:
    the labels are strings, and it reads [.name] on the first label. *)
Theorem get_output_variable_names_raises (self : FuzzyRule.t) :
  FuzzyRule.get_output_variable_names self
  = match FuzzyRule.consequents self with
    | [] => Ok []
    | _ :: _ => Raise AttributeError
    end.
Proof.
  unfold FuzzyRule.get_output_variable_names.
  by destruct (FuzzyRule.consequents self).
Qed.

(** ** The builders *)

(** C6 (evaluated on the code): [TwoPointsPDLV("T", 0, 0)], with a
    distance that is not positive, is constructed without an error, and
    both of its functions get the inputs [[0, 0]]; at the point itself
    the first function then has the degree 0, where the docstring has 1.
    The three-point builder raises [AssertionError] on points that are
    not strictly increasing, as on [(0, 0, 10)] and [(10, 5, 20)]. *)
Theorem TwoPointsPDLV_zero_distance_constructs :
  ¬ (0 < (0 : Qc)) ∧
  TwoPointsPDLV.init "T" 0 0 "low" "high"
  = Ok (mkLV "T"
          (<["high" := mkMF LinPWMF_class [0; 0] [0; 1]]>
             (<["low" := mkMF LinPWMF_class [0; 0] [1; 0]]> ∅))) ∧
  (lv ← TwoPointsPDLV.init "T" 0 0 "low" "high";
   fuzzify_label lv "low" false 0) = Ok [0] ∧
  ThreePointsLV.init "T" 0 0 (num 10) "low" "medium" "high"
  = Raise AssertionError ∧
  ThreePointsLV.init "T" (num 10) (num 5) (num 20) "low" "medium" "high"
  = Raise AssertionError.
Proof.
  split; [by apply Qcle_not_lt|]. split; [vm_compute; reflexivity|].
  split; [by_evaluation|]. split; reflexivity.
Qed.

(** The guard of the three-point builder: it is constructed exactly when
    its points are strictly increasing, and raises [AssertionError]
    otherwise. *)
Lemma ThreePointsLV_guard (lv_name : string) (p1 p2 p3 : Qc)
    (n1 n2 n3 : string) :
  returns (ThreePointsLV.init lv_name p1 p2 p3 n1 n2 n3)
    = bool_decide (p1 < p2 ∧ p2 < p3) ∧
  (returns (ThreePointsLV.init lv_name p1 p2 p3 n1 n2 n3) = true ∨
   ThreePointsLV.init lv_name p1 p2 p3 n1 n2 n3 = Raise AssertionError).
Proof.
  split.
  - unfold ThreePointsLV.init.
    destruct (decide (p1 < p2 ∧ p2 < p3)) as [Hinc|Hinc].
    + by rewrite bool_decide_eq_true_2.
    + by rewrite bool_decide_eq_false_2.
  - unfold ThreePointsLV.init. case_decide; auto.
Qed.

(** ** FuzzyRule.implicate *)

Lemma implicate_loop_groups impl_func a cons acc :
  Forall (λ con, is_Some (consequent_mf con)) cons →
  ∃ m, FuzzyRule.implicate_loop impl_func a cons acc = Ok m ∧
    ∀ k, ∃ l,
      Forall2 (implicated_from impl_func a) (on_variable k cons) l ∧
      m !! k = if decide (l = []) then acc !! k
               else Some (default [] (acc !! k) ++ l).
Proof.
  intros Hres. revert acc.
  induction Hres as [|con cons [mf Hmf] _ IH]; intros acc.
  { exists acc. split; [done|]. intros k. exists []. by split. }
  simpl. unfold LinguisticVariable.getitem, dict_getitem.
  unfold consequent_mf in Hmf. rewrite Hmf. simpl.
  set (k0 := name (Consequent.lv_name con)).
  set (new := FuzzyRule.implicated impl_func a mf).
  destruct (IH (defaultdict_append acc k0 new)) as (m & -> & Hm).
  exists m. split; [done|]. intros k.
  destruct (Hm k) as (l & Hl & Hk). unfold on_variable.
  rewrite filter_cons. fold k0. unfold defaultdict_append in Hk.
  destruct (decide (k0 = k)) as [->|Hne].
  - exists (new :: l). split.
    + constructor; [|done]. unfold implicated_from, consequent_mf.
      by rewrite Hmf.
    + rewrite decide_False by done. rewrite lookup_insert_eq in Hk.
      rewrite Hk. case_decide as Hnil; [by subst l|].
      simpl. by rewrite <-(assoc_L (++)).
  - exists l. split; [done|]. by rewrite lookup_insert_ne in Hk.
Qed.

(** C4: for a rule whose consequents resolve, [implicate] returns a dict
    keyed by variable name: the names of the consequents' variables are
    its keys, and the value at a name is the list of the implicated
    functions of the consequents on that variable, one for each, in
    declaration order. *)
Theorem implicate_groups_by_variable (self : FuzzyRule.t) (a : Qc) :
  Forall (λ con, is_Some (consequent_mf con)) (FuzzyRule._cons self) →
  ∃ m, FuzzyRule.implicate self a = Ok m ∧
    ∀ k, ∃ l,
      Forall2 (implicated_from (FuzzyRule._impl_func self).1 a)
        (on_variable k (FuzzyRule._cons self)) l ∧
      m !! k = if decide (l = []) then None else Some l.
Proof.
  intros Hres. unfold FuzzyRule.implicate.
  destruct (implicate_loop_groups (FuzzyRule._impl_func self).1 a
              (FuzzyRule._cons self) ∅ Hres) as (m & Hm & Hk).
  exists m. split; [done|]. intros k.
  destruct (Hk k) as (l & Hl & Hmk). exists l. split; [done|].
  by rewrite Hmk, lookup_empty.
Qed.

(** ** FuzzyRule.implicate over the object store *)

Lemma deref_app (σ extra : Store.t) (r : Store.ref) :
  (r < length σ)%nat → Store.deref (σ ++ extra) r = Store.deref σ r.
Proof.
  intros Hr. unfold Store.deref.
  by rewrite !list_lookup_total_alt, lookup_app_l.
Qed.

Lemma deref_new (σ extra : Store.t) (o : MF) :
  Store.deref (σ ++ o :: extra) (length σ) = o.
Proof.
  unfold Store.deref.
  by rewrite list_lookup_total_alt, lookup_app_r, Nat.sub_diag.
Qed.

Lemma fmap_deref_app (σ extra : Store.t) (l : list Store.ref) :
  Forall (λ r, (r < length σ)%nat) l →
  Store.deref (σ ++ extra) <$> l = Store.deref σ <$> l.
Proof.
  intros Hl. apply list_fmap_ext. intros i r Hr.
  apply deref_app. exact (Forall_lookup_1 _ _ _ _ Hl Hr).
Qed.

(** The invariant of the loop, from a store [σ0 ++ extra] whose part
    [extra] the loop has allocated so far. *)
Lemma store_implicate_loop impl_func a σ0 cons :
  Forall (Store.in_store σ0) cons →
  ∀ extra acc,
    (∀ k l, acc !! k = Some l →
       Forall (λ r, (r < length (σ0 ++ extra))%nat) l) →
    ∃ m news,
      Store.implicate_loop impl_func a cons acc (σ0 ++ extra)
        = Ok (m, σ0 ++ extra ++ news) ∧
      Forall2 (Store.implicated_of impl_func a σ0) cons news ∧
      (∀ i con, cons !! i = Some con →
         ∃ l, m !! Store.obj_name (Store.lv_name con) = Some l ∧
              (length σ0 + length extra + i)%nat ∈ l) ∧
      (∀ k l, acc !! k = Some l → ∃ l', m !! k = Some (l ++ l')) ∧
      FuzzyRule.implicate_loop impl_func a (Store.view σ0 <$> cons)
        (Store.read (σ0 ++ extra) acc)
      = Ok (Store.read (σ0 ++ extra ++ news) m).
Proof.
  induction 1 as [|con cons (r & Hr & Hlt) _ IH]; intros extra acc Hacc.
  { exists acc, []. rewrite app_nil_r. split_and!; try done.
    intros k l Hl. exists []. by rewrite app_nil_r. }
  pose (k0 := Store.obj_name (Store.lv_name con)).
  pose (new := FuzzyRule.implicated impl_func a (Store.deref σ0 r)).
  pose (r' := length (σ0 ++ extra)).
  assert (∀ k l, defaultdict_append acc k0 r' !! k = Some l →
    Forall (λ r, (r < length (σ0 ++ extra ++ [new]))%nat) l) as Hacc'.
  { intros k l. unfold defaultdict_append.
    assert (r' < length (σ0 ++ extra ++ [new]))%nat as Hlen.
    { unfold r'. rewrite !length_app. simpl. lia. }
    destruct (decide (k0 = k)) as [<-|Hne].
    - rewrite lookup_insert_eq. intros [= <-].
      apply Forall_app. split; [|by repeat constructor].
      destruct (acc !! k0) as [l0|] eqn:Hl0; simpl; [|done].
      eapply Forall_impl; [by eapply Hacc|]. simpl. intros; lia.
    - rewrite lookup_insert_ne by done. intros Hl.
      eapply Forall_impl; [by eapply Hacc|]. simpl. intros; lia. }
  destruct (IH (extra ++ [new]) _ Hacc')
    as (m & news & Hrun & Hnews & Hin & Hmono & Hview).
  exists m, (new :: news).
  assert (σ0 ++ (extra ++ [new]) ++ news = σ0 ++ extra ++ new :: news) as Hσ.
  { by rewrite <-(assoc_L (++) extra). }
  rewrite Hσ in Hrun, Hview.
  split_and!.
  - simpl. unfold dict_getitem. rewrite Hr. simpl.
    rewrite (deref_app σ0 extra r Hlt).
    rewrite <-Hrun. by rewrite (assoc_L (++) σ0).
  - constructor; [|done]. exists r. by split_and!.
  - intros [|i] con' Hcon'.
    + injection Hcon' as <-.
      destruct (Hmono k0 (default [] (acc !! k0) ++ [r'])) as [l' Hl'].
      { unfold defaultdict_append. by rewrite lookup_insert_eq. }
      eexists. split; [exact Hl'|]. rewrite Nat.add_0_r, <-length_app.
      fold r'. set_solver.
    + destruct (Hin i con' Hcon') as (l & Hl & Hil). exists l.
      split; [done|]. rewrite length_app in Hil. simpl in Hil.
      by replace (length σ0 + length extra + S i)%nat
        with (length σ0 + (length extra + 1) + i)%nat by lia.
  - intros k l Hl. unfold defaultdict_append in Hmono.
    destruct (decide (k0 = k)) as [<-|Hne].
    + destruct (Hmono k0 (l ++ [r'])) as [l' Hl'].
      { by rewrite lookup_insert_eq, Hl. }
      exists (r' :: l'). by rewrite Hl', <-(assoc_L (++)).
    + apply Hmono. by rewrite lookup_insert_ne.
  - simpl. unfold LinguisticVariable.getitem, dict_getitem. simpl.
    rewrite lookup_fmap, Hr. simpl. rewrite <-Hview.
    f_equal. unfold defaultdict_append, Store.read.
    rewrite fmap_insert, !lookup_fmap, fmap_app. simpl.
    rewrite (assoc_L (++) σ0 extra [new]). subst r'.
    rewrite (deref_new (σ0 ++ extra) [] new). fold k0 new. f_equal.
    + f_equal. destruct (acc !! k0) as [l0|] eqn:Hl0; simpl.
      * symmetry. apply fmap_deref_app. by eapply Hacc.
      * done.
    + apply map_fmap_ext. intros k l Hl. symmetry.
      apply fmap_deref_app. by eapply Hacc.
Qed.

(** C3: over a store [σ] that holds the consequents' functions,
    [implicate] returns and only appends to the store, so every object of
    [σ], the consequents' functions among them, is left as it was; it
    appends one new object per consequent, in declaration order, which is
    a [FreeShapeMF] with the inputs of the consequent's function and with
    each of its degrees [d] replaced by [impl_func([d, a])]; the new
    object of the [i]-th consequent is listed at its variable's name.
    Read through the store, the result is the one of [implicate] on the
    values. *)
Theorem implicate_builds_new_functions
    (impl_func ant_act_func : (list Qc → Qc) * string)
    (ants : list Antecedent.t) (cons : list Store.Cons) (a : Qc)
    (σ : Store.t) :
  Forall (Store.in_store σ) cons →
  ∃ m news,
    Store.implicate impl_func cons a σ = Ok (m, σ ++ news) ∧
    (∀ r, (r < length σ)%nat → Store.deref (σ ++ news) r = Store.deref σ r) ∧
    Forall2 (Store.implicated_of impl_func.1 a σ) cons news ∧
    (∀ i con, cons !! i = Some con →
       ∃ l, m !! Store.obj_name (Store.lv_name con) = Some l ∧
            (length σ + i)%nat ∈ l) ∧
    FuzzyRule.implicate
      (FuzzyRule.init ants ant_act_func (Store.view σ <$> cons) impl_func) a
    = Ok (Store.read (σ ++ news) m).
Proof.
  intros Hin.
  destruct (store_implicate_loop impl_func.1 a σ cons Hin [] ∅)
    as (m & news & Hrun & Hnews & Hat & _ & Hview).
  { intros k l. by rewrite lookup_empty. }
  simpl in *. rewrite app_nil_r in Hrun, Hview.
  exists m, news. split_and!; [done| |done| |].
  - intros r Hr. by apply deref_app.
  - intros i con Hcon. destruct (Hat i con Hcon) as (l & Hl & Hil).
    exists l. split; [done|]. by rewrite Nat.add_0_r in Hil.
  - unfold FuzzyRule.implicate. simpl. rewrite <-Hview.
    unfold Store.read. by rewrite fmap_empty.
Qed.

(** The spec's sample: degrees [[0, 1, 0]] implicated with [min] at the
    activation 0.6 become [[0, 0.6, 0]] in a new object at the next free
    address, over the same inputs. *)
Example implicate_sample :
  Store.implicate (py_min, "min")
    [Store.mkCons Examples.power_obj "low"] (frac 6 10) Examples.power_store
  = Ok ({[ "power" := [2%nat] ]},
        Examples.power_store
          ++ [FreeShapeMF [0; 1; num 2] [0; frac 6 10; 0]]).
Proof. by_evaluation. Qed.

(** ** The theorems at the examples *)

(** Two consequents on [power] over the store of its two functions: two
    objects are appended, the implicated [low] and [high]. *)
Lemma implicate_builds_new_functions_at_power :
  ∃ m news,
    Store.implicate (py_min, "min")
      [Store.mkCons Examples.power_obj "low";
       Store.mkCons Examples.power_obj "high"] (frac 6 10)
      Examples.power_store
    = Ok (m, Examples.power_store ++ news) ∧
    Forall2 (Store.implicated_of py_min (frac 6 10) Examples.power_store)
      [Store.mkCons Examples.power_obj "low";
       Store.mkCons Examples.power_obj "high"] news.
Proof.
  destruct (implicate_builds_new_functions (py_min, "min") (py_min, "AND_min")
              [] [Store.mkCons Examples.power_obj "low";
                  Store.mkCons Examples.power_obj "high"]
              (frac 6 10) Examples.power_store)
    as (m & news & Hrun & _ & Hnews & _).
  - repeat constructor.
    + exists 0%nat. split; [reflexivity|]. simpl. lia.
    + exists 1%nat. split; [reflexivity|]. simpl. lia.
  - exists m, news. by split.
Defined.

(** The rule with two consequents on [power]. *)
Lemma implicate_groups_by_variable_at_power :
  ∃ m, FuzzyRule.implicate Examples.two_on_power (frac 6 10) = Ok m ∧
    ∀ k, ∃ l,
      Forall2 (implicated_from py_min (frac 6 10))
        (on_variable k (FuzzyRule._cons Examples.two_on_power)) l ∧
      m !! k = if decide (l = []) then None else Some l.
Proof.
  apply (implicate_groups_by_variable Examples.two_on_power (frac 6 10)).
  repeat constructor; eexists; reflexivity.
Defined.

(** The dict has the single key ["power"], with the two implicated
    functions in declaration order. *)
Example implicate_two_on_power :
  FuzzyRule.implicate Examples.two_on_power (frac 6 10)
  = Ok {[ "power" := [FreeShapeMF [0; 1; num 2] [0; frac 6 10; 0];
                      FreeShapeMF [1; num 2; num 3] [0; frac 6 10; 0]] ]}.
Proof. by_evaluation. Qed.

(** Two antecedents on [temperature], first [low] and then [high], and
    the input [{"temperature": 18}]: the degree is the one of [low], 0.2,
    not the one of [high], 0.8. *)
Lemma fuzzify_first_match_only_at_temperature :
  FuzzyRule.fuzzify Examples.twice_temperature [("temperature", num 18)]
  = Ok [frac 2 10].
Proof.
  etrans.
  - refine (proj1 (fuzzify_first_match_only []
      [Antecedent.init Examples.temperature "high" false]
      (Antecedent.init Examples.temperature "low" false) "temperature"
      (py_min, "AND_min") (py_min, "min") [] _ _) (num 18)).
    + unfold mentions. by inversion 1.
    + reflexivity.
  - by_evaluation.
Defined.

(** Only the first-declared label, [low], is used: 0.2 at 18. *)
Example fuzzify_twice_temperature :
  FuzzyRule.fuzzify Examples.twice_temperature [("temperature", num 18)]
  = Ok [frac 2 10].
Proof. by_evaluation. Qed.

(** [temperature is NOT high] at 13, where [high] has the degree 0.3. *)
Lemma fuzzify_negation_complements_at_temperature :
  FuzzyRule.fuzzify Examples.not_hot [("temperature", num 13)]
  = Ok [1 - frac 3 10].
Proof.
  refine (proj1 (fuzzify_negation_complements Examples.not_hot [] []
    (Antecedent.init Examples.temperature "high" true)
    (LinPWMF [(num 10, 0); (num 10 + num 10, 1)])
    "temperature" (num 13) (frac 3 10) [] [] _ _ _ _ _ _)).
  - reflexivity.
  - unfold mentions. by inversion 1.
  - reflexivity.
  - reflexivity.
  - reflexivity.
  - by_evaluation.
Defined.

(** The spec's sample: a raw degree of 0.3 contributes 0.7. *)
Example fuzzify_not_hot :
  FuzzyRule.fuzzify Examples.not_hot [("temperature", num 13)]
  = Ok [frac 7 10].
Proof. by_evaluation. Qed.

(** Three entries, of which [wind] names no antecedent: two degrees. *)
Lemma fuzzify_skips_unmatched_in_input_order_at_weather :
  ∃ out,
    FuzzyRule.fuzzify Examples.sunny_and_cold
      [("temperature", num 18); ("wind", num 3); ("sunshine", num 55)]
    = Ok out ∧
    length out = 2%nat.
Proof.
  destruct (fuzzify_skips_unmatched_in_input_order Examples.sunny_and_cold
    [("temperature", num 18); ("wind", num 3); ("sunshine", num 55)])
    as (out & Hout & Hlen & _).
  - repeat constructor; eexists; (split; [reflexivity|]); by split.
  - exists out. split; [done|]. exact Hlen.
Defined.

(** The entry of [wind] is skipped, and the degrees follow the mapping's
    order ([temperature] before [sunshine]), not the antecedents'. *)
Example fuzzify_sunny_and_cold :
  FuzzyRule.fuzzify Examples.sunny_and_cold
    [("temperature", num 18); ("wind", num 3); ("sunshine", num 55)]
  = Ok [frac 2 10; frac 55 100].
Proof. by_evaluation. Qed.

(** The spec's samples of [activate]. *)
Example activate_samples :
  FuzzyRule.activate Examples.level_rule [frac 2 10; frac 9 10; frac 5 10]
    = Ok (frac 2 10) ∧
  FuzzyRule.activate
    (FuzzyRule.init [] (py_max, "OR_max") [] (py_min, "min"))
    [frac 2 10; frac 9 10; frac 5 10] = Ok (frac 9 10) ∧
  FuzzyRule.activate Examples.level_rule [frac 4 10] = Ok (frac 4 10).
Proof. by_evaluation. Qed.

(** * Further properties of the code *)

(** ** Errors of fuzzify and implicate *)

(** X1: when the first antecedent on the variable [k] refers to a label
    that its variable does not have, [fuzzify] raises [KeyError] at the
    entry of [k]: the entries before it are fuzzified first, and an error
    of theirs comes first. *)
Theorem fuzzify_missing_label_KeyError (self : FuzzyRule.t)
    (before after : list Antecedent.t) (ant : Antecedent.t) (k : string)
    (v : Qc) (xs ys : list (string * Qc)) :
  FuzzyRule._ants self = before ++ ant :: after →
  ¬ mentions before k →
  name (Antecedent.lv_name ant) = k →
  ling_values (Antecedent.lv_name ant) !! Antecedent.lv_value ant = None →
  FuzzyRule.fuzzify self (xs ++ (k, v) :: ys)
  = FuzzyRule.fuzzify self xs ≫= λ _, Raise KeyError.
Proof.
  intros Hants Hno Hant Hmf.
  assert (FuzzyRule.fuzzify self [(k, v)] = Raise KeyError) as Hkv.
  { unfold FuzzyRule.fuzzify. rewrite Hants. simpl.
    rewrite (find_antecedent_first before ant after k Hno Hant).
    unfold dict_getitem. by rewrite Hmf. }
  rewrite fuzzify_app, fuzzify_cons, Hkv.
  by destruct (FuzzyRule.fuzzify self xs).
Qed.

Lemma implicate_loop_KeyError impl_func a before con after acc :
  Forall (λ c, is_Some (consequent_mf c)) before →
  consequent_mf con = None →
  FuzzyRule.implicate_loop impl_func a (before ++ con :: after) acc
  = Raise KeyError.
Proof.
  intros Hres Hcon. revert acc.
  induction Hres as [|c before [mf Hmf] _ IH]; intros acc; simpl.
  - unfold LinguisticVariable.getitem, dict_getitem.
    unfold consequent_mf in Hcon. by rewrite Hcon.
  - unfold LinguisticVariable.getitem, dict_getitem.
    unfold consequent_mf in Hmf. rewrite Hmf. simpl. apply IH.
Qed.

(** X2: when a consequent refers to a label that its variable does not
    have, and the consequents before it resolve, [implicate] raises
    [KeyError] and returns no part of the dict. *)
Theorem implicate_missing_label_KeyError (self : FuzzyRule.t) (a : Qc)
    (before after : list Consequent.t) (con : Consequent.t) :
  FuzzyRule._cons self = before ++ con :: after →
  Forall (λ c, is_Some (consequent_mf c)) before →
  consequent_mf con = None →
  FuzzyRule.implicate self a = Raise KeyError.
Proof.
  intros Hcons Hres Hcon. unfold FuzzyRule.implicate. rewrite Hcons.
  by apply implicate_loop_KeyError.
Qed.

Lemma fuzzify_all_unmentioned self items :
  Forall (λ kv, ¬ mentions (FuzzyRule._ants self) kv.1) items →
  FuzzyRule.fuzzify self items = Ok [].
Proof.
  induction 1 as [|[k v] items Hkv _ IH]; [done|].
  rewrite fuzzify_cons, IH, (fuzzify_entry_unmentioned self k v Hkv).
  done.
Qed.

(** X3: when no entry of the input mapping names a variable of the rule's
    antecedents (the empty mapping, or a rule without antecedents, among
    others), [fuzzify] returns the empty list, and [activate] on that
    result raises [IndexError]. *)
Theorem fuzzify_then_activate_IndexError (self : FuzzyRule.t)
    (crisp_inputs : list (string * Qc)) :
  Forall (λ kv, ¬ mentions (FuzzyRule._ants self) kv.1) crisp_inputs →
  FuzzyRule.fuzzify self crisp_inputs = Ok [] ∧
  FuzzyRule.fuzzify self crisp_inputs ≫= FuzzyRule.activate self
  = Raise IndexError.
Proof.
  intros Hno. by rewrite (fuzzify_all_unmentioned self crisp_inputs Hno).
Qed.

(** ** The textual form *)

(** X4: the textual form of a rule shows the variables and labels of its
    antecedents and consequents and the display name of the aggregation
    operator, and nothing else: rules that agree on these have the same
    text, whatever their negation flags, membership functions and
    operators are. *)
Theorem repr_hides_negation (ants1 ants2 : list Antecedent.t)
    (cons1 cons2 : list Consequent.t) (display : string)
    (ant_act1 ant_act2 : list Qc → Qc)
    (impl_func1 impl_func2 : (list Qc → Qc) * string) :
  Forall2 same_text ants1 ants2 →
  Forall2 same_conclusion cons1 cons2 →
  FuzzyRule__repr__
    (FuzzyRule.init ants1 (ant_act1, display) cons1 impl_func1)
  = FuzzyRule__repr__
      (FuzzyRule.init ants2 (ant_act2, display) cons2 impl_func2).
Proof.
  intros Hants Hcons.
  unfold FuzzyRule__repr__, FuzzyRule.antecedents, FuzzyRule.consequents.
  simpl.
  assert ((λ a, is_text (name (Antecedent.lv_name a)) (Antecedent.lv_value a))
            <$> ants1
          = (λ a, is_text (name (Antecedent.lv_name a))
                    (Antecedent.lv_value a)) <$> ants2) as ->.
  { induction Hants as [|a b ants1 ants2 [Hname Hlabel] _ IH]; [done|].
    by rewrite !fmap_cons, Hname, Hlabel, IH. }
  assert ((λ c, is_text (name (Consequent.lv_name c)) (Consequent.lv_value c))
            <$> cons1
          = (λ c, is_text (name (Consequent.lv_name c))
                    (Consequent.lv_value c)) <$> cons2) as ->.
  { induction Hcons as [|c d cons1 cons2 [Hname Hlabel] _ IH]; [done|].
    by rewrite !fmap_cons, Hname, Hlabel, IH. }
  done.
Qed.

(** ** Singleton antecedents *)

(** X5: for an antecedent on a [SingletonMF(x)], the rule's [fuzzify]
    yields the step at [x]: 0 for every input below [x] and 1 for every
    input from [x] on (and the complement when negated). It agrees with
    the singleton's own [fuzzify] exactly at the inputs up to [x]. *)
Theorem fuzzify_singleton_is_step (lv : LV) (label : string) (is_not : bool)
    (x v : Qc) :
  ling_values lv !! label = Some (SingletonMF.init x) →
  FuzzyRule.fuzzify (rule_on lv label is_not) [(name lv, v)]
  = Ok [let step := if decide (v < x) then 0 else 1 in
        if is_not then 1 - step else step] ∧
  (v ≤ x ↔
   FuzzyRule.fuzzify (rule_on lv label false) [(name lv, v)]
   = (λ d, [d]) <$> SingletonMF.fuzzify (SingletonMF.init x) v).
Proof.
  intros Hmf.
  assert (∀ n, FuzzyRule.fuzzify (rule_on lv label n) [(name lv, v)]
    = Ok [let step := if decide (v < x) then 0 else 1 in
          if n then 1 - step else step]) as Hstep.
  { intros n. unfold FuzzyRule.fuzzify. simpl.
    rewrite decide_True by done. unfold dict_getitem. rewrite Hmf. simpl.
    pose proof (interp_singleton_step x v) as Hi. simpl in Hi.
    rewrite Hi. done. }
  split; [apply Hstep|]. rewrite Hstep. simpl.
  unfold SingletonMF.fuzzify. simpl.
  destruct (decide (v < x)) as [Hlt|Hge]; destruct (decide (v = x)) as [->|Hne].
  - by apply Qclt_not_le in Hlt.
  - split; [done|]. intros _. by apply Qclt_le_weak.
  - done.
  - split; [|done]. intros Hle.
    apply Qcle_lt_or_eq in Hle as [Hlt| ->]; done.
Qed.

(** ** More on activate *)

Lemma activate_cons (self : FuzzyRule.t) (d : Qc) (ds : list Qc) :
  FuzzyRule.activate self (d :: ds)
  = Ok (foldl (pairwise (FuzzyRule._ant_act_func self).1) d ds).
Proof.
  unfold FuzzyRule.activate. cbn [getitem lookup list_lookup length].
  rewrite result_bind_Ok.
  replace (S (length ds) - 1)%nat with (length ds) by lia.
  apply (activate_loop_suffix _ [d] ds d).
Qed.

Section Aggregation.

Variable g : Qc → Qc → Qc.
Hypothesis g_comm : ∀ a b, g a b = g b a.
Hypothesis g_assoc : ∀ a b c, g (g a b) c = g a (g b c).

Lemma foldl_swap (x a b : Qc) : g (g x a) b = g (g x b) a.
Proof. by rewrite !g_assoc, (g_comm a b). Qed.

Lemma foldl_perm (l1 l2 : list Qc) :
  l1 ≡ₚ l2 → ∀ x, foldl g x l1 = foldl g x l2.
Proof.
  induction 1 as [|a l1 l2 _ IH|a b l|l1 l2 l3 _ IH1 _ IH2]; intros x; simpl.
  - done.
  - apply IH.
  - by rewrite foldl_swap.
  - by rewrite IH1, IH2.
Qed.

(** The fold from the first element does not depend on which element
    comes first. *)
Lemma foldl_seed_perm (d d' : Qc) (ds ds' : list Qc) :
  d :: ds ≡ₚ d' :: ds' → foldl g d ds = foldl g d' ds'.
Proof.
  intros Hp. destruct (decide (d = d')) as [<-|Hne].
  { apply foldl_perm. by apply (inj (cons d)). }
  assert (d ∈ ds') as Hd.
  { assert (d ∈ d' :: ds') as Hin by (rewrite <-Hp; apply list_elem_of_here).
    apply elem_of_cons in Hin as [?|?]; done. }
  apply elem_of_Permutation in Hd as [r Hr].
  assert (ds ≡ₚ d' :: r) as Hds.
  { apply (inj (cons d)). rewrite Hp, Hr. apply Permutation_swap. }
  rewrite (foldl_perm _ _ Hds d), (foldl_perm _ _ Hr d'). simpl.
  by rewrite (g_comm d d').
Qed.

End Aggregation.

(** X6: when the aggregation function is commutative and associative on
    pairs, [activate] does not depend on the order of the fuzzified
    inputs: it returns the same value (or raises alike, on the empty
    sequence) on every reordering. *)
Theorem activate_order_independent (self : FuzzyRule.t) (l1 l2 : list Qc) :
  let f := (FuzzyRule._ant_act_func self).1 in
  (∀ a b, f [a; b] = f [b; a]) →
  (∀ a b c, f [f [a; b]; c] = f [a; f [b; c]]) →
  l1 ≡ₚ l2 →
  FuzzyRule.activate self l1 = FuzzyRule.activate self l2.
Proof.
  intros f Hcomm Hassoc Hp.
  destruct l1 as [|d ds], l2 as [|d' ds'].
  - done.
  - by apply Permutation_nil_cons in Hp.
  - symmetry in Hp. by apply Permutation_nil_cons in Hp.
  - rewrite !activate_cons. f_equal.
    by apply (foldl_seed_perm (pairwise f) Hcomm Hassoc).
Qed.

(** X7: when the aggregation function keeps pairs of numbers of an
    interval inside that interval, [activate] on a non-empty sequence of
    numbers of the interval returns a number of the interval; so degrees
    in [[0, 1]] give a firing strength in [[0, 1]]. *)
Theorem activate_within (self : FuzzyRule.t) (lo hi : Qc) (l : list Qc) :
  let f := (FuzzyRule._ant_act_func self).1 in
  (∀ a b, within lo hi a → within lo hi b → within lo hi (f [a; b])) →
  l ≠ [] →
  Forall (within lo hi) l →
  ∃ r, FuzzyRule.activate self l = Ok r ∧ within lo hi r.
Proof.
  intros f Hf Hne Hl. destruct l as [|d ds]; [done|].
  apply Forall_cons in Hl as [Hd Hds].
  rewrite activate_cons. eexists. split; [done|]. fold f.
  clear Hne. revert d Hd. induction Hds as [|x ds Hx _ IH]; intros d Hd; [done|].
  simpl. apply IH. by apply Hf.
Qed.

(** ** The size of the result of fuzzify *)

Lemma fuzzify_length self items :
  Forall resolves (FuzzyRule._ants self) →
  ∃ out, FuzzyRule.fuzzify self items = Ok out ∧
    length out
    = length (filter (λ kv, mentions (FuzzyRule._ants self) kv.1) items).
Proof.
  intros Hres. induction items as [|[k v] items (o2 & Ho2 & Hl2)].
  { by exists []. }
  rewrite fuzzify_cons, Ho2, filter_cons. simpl.
  destruct (decide (mentions (FuzzyRule._ants self) k)) as [Hm|Hm].
  - destruct (fuzzify_entry_mentioned self k v Hres Hm) as [d ->].
    exists (d :: o2). simpl. by rewrite Hl2.
  - rewrite (fuzzify_entry_unmentioned self k v Hm). by exists o2.
Qed.

(** The names of the variables of the antecedents, in declaration
    order. *)
Lemma mentions_names ants k :
  mentions ants k ↔ k ∈ (λ ant, name (Antecedent.lv_name ant)) <$> ants.
Proof.
  unfold mentions. rewrite Exists_exists, list_elem_of_fmap.
  split; intros (ant & H1 & H2); exists ant; by split.
Qed.

Lemma filter_keys_length (P : string → Prop) `{!∀ k, Decision (P k)}
    (items : list (string * Qc)) :
  length (filter (λ kv, P kv.1) items) = length (filter P items.*1).
Proof.
  induction items as [|[k v] items IH]; [done|].
  rewrite fmap_cons, !filter_cons. simpl. case_decide; simpl; by rewrite IH.
Qed.

(** X8: the docstring of [fuzzify] promises a list of the size of the
    number of antecedents; this holds when the antecedents resolve, are
    on pairwise different variables, and every one of these variables is
    a key of the input mapping (whose keys are pairwise different, as in
    a dict). *)
Theorem fuzzify_one_degree_per_antecedent (self : FuzzyRule.t)
    (crisp_inputs : list (string * Qc)) :
  let names :=
    (λ ant, name (Antecedent.lv_name ant)) <$> FuzzyRule._ants self in
  Forall resolves (FuzzyRule._ants self) →
  NoDup names →
  NoDup crisp_inputs.*1 →
  names ⊆ crisp_inputs.*1 →
  ∃ out, FuzzyRule.fuzzify self crisp_inputs = Ok out ∧
         length out = length (FuzzyRule._ants self).
Proof.
  intros names Hres Hnames Hkeys Hsub.
  destruct (fuzzify_length self crisp_inputs Hres) as (out & Hout & Hlen).
  exists out. split; [done|]. rewrite Hlen.
  rewrite (filter_keys_length (mentions (FuzzyRule._ants self))).
  rewrite <-(length_fmap (λ ant, name (Antecedent.lv_name ant))).
  fold names. apply Permutation_length, NoDup_Permutation.
  - by apply NoDup_filter.
  - done.
  - intros k. rewrite list_elem_of_filter, mentions_names. fold names.
    split; [by intros [Hk _]|]. intros Hk. split; [done|]. by apply Hsub.
Qed.

(** ** Order and arithmetic of the numbers *)

Lemma this_plus (a b : Qc) : (this (a + b) == this a + this b)%Q.
Proof. apply Qred_correct. Qed.
Lemma this_opp (a : Qc) : (this (- a) == - this a)%Q.
Proof. apply Qred_correct. Qed.
Lemma this_minus (a b : Qc) : (this (a - b) == this a - this b)%Q.
Proof. unfold Qcminus. by rewrite this_plus, this_opp. Qed.
Lemma this_eq (a b : Qc) : a = b → (this a == this b)%Q.
Proof. by intros ->. Qed.

(** Order facts on the numbers are settled over [Q], by linear
    arithmetic. *)
Ltac qc_order :=
  repeat match goal with
  | H : @eq Qc ?a ?b |- _ => apply this_eq in H
  | H : ¬ (@eq Qc ?a ?b) |- _ =>
      assert (¬ (this a == this b)%Q)
        by (let E := fresh in intros E; apply H, Qc_is_canon, E);
      clear H
  | |- @eq Qc _ _ => apply Qc_is_canon
  | |- ¬ (@eq Qc _ _) => let E := fresh in intros E
  end;
  unfold within, Qcle, Qclt in *;
  repeat first
    [ rewrite this_minus | rewrite this_plus | rewrite this_opp
    | match goal with
      | H : _ |- _ =>
          first [ rewrite this_minus in H | rewrite this_plus in H
                | rewrite this_opp in H ]
      end ];
  repeat match goal with
  | H : context [this (0%Qc)] |- _ => change (this 0%Qc) with 0%Q in H
  | H : context [this (1%Qc)] |- _ => change (this 1%Qc) with 1%Q in H
  | |- context [this (0%Qc)] => change (this 0%Qc) with 0%Q
  | |- context [this (1%Qc)] => change (this 1%Qc) with 1%Q
  end;
  lra.

(** ** Degrees stay degrees *)

Lemma implicated_bounded impl_func a lo hi mf :
  (∀ d, within lo hi d → within lo hi (impl_func [d; a])) →
  sampled mf → Forall (within lo hi) (mf_values mf) →
  sampled (FuzzyRule.implicated impl_func a mf) ∧
  Forall (within lo hi) (mf_values (FuzzyRule.implicated impl_func a mf)).
Proof.
  intros Himpl [Hne Hlen] Hw. unfold sampled. simpl.
  rewrite length_fmap. split; [done|].
  apply Forall_fmap. eapply Forall_impl; [exact Hw|]. exact Himpl.
Qed.

Lemma implicated_from_bounded impl_func a lo hi cs l :
  (∀ d, within lo hi d → within lo hi (impl_func [d; a])) →
  Forall (bounded_consequent lo hi) cs →
  Forall2 (implicated_from impl_func a) cs l →
  Forall (λ mf', sampled mf' ∧ Forall (within lo hi) (mf_values mf')) l.
Proof.
  intros Himpl Hcs Hl. induction Hl as [|con mf' cs l Hfrom _ IH]; [done|].
  apply Forall_cons in Hcs as [(mf & Hmf & Hs & Hw) Hcs].
  constructor; [|by apply IH].
  unfold implicated_from in Hfrom. rewrite Hmf in Hfrom.
  injection Hfrom as <-. by apply implicated_bounded.
Qed.

(** X10: when the implication function keeps a degree of an interval
    inside the interval (at the given activation), and every consequent's
    label resolves to a function with as many degrees as inputs and
    degrees in the interval, [implicate] returns a dict all of whose
    functions again have as many degrees as inputs and degrees in the
    interval. *)
Theorem implicate_keeps_bounds (self : FuzzyRule.t) (a lo hi : Qc) :
  let impl_func := (FuzzyRule._impl_func self).1 in
  (∀ d, within lo hi d → within lo hi (impl_func [d; a])) →
  Forall (bounded_consequent lo hi) (FuzzyRule._cons self) →
  ∃ m, FuzzyRule.implicate self a = Ok m ∧
    ∀ k l, m !! k = Some l →
      Forall (λ mf', sampled mf' ∧ Forall (within lo hi) (mf_values mf')) l.
Proof.
  intros impl_func Himpl Hcons.
  assert (Forall (λ con, is_Some (consequent_mf con)) (FuzzyRule._cons self))
    as Hres.
  { eapply Forall_impl; [exact Hcons|]. intros con (mf & -> & _). eauto. }
  destruct (implicate_loop_groups impl_func a (FuzzyRule._cons self) ∅ Hres)
    as (m & Hm & Hk).
  exists m. split; [exact Hm|]. intros k l Hl.
  destruct (Hk k) as (l' & Hl' & Hmk). rewrite Hl, lookup_empty in Hmk.
  case_decide; [done|]. injection Hmk as ->.
  assert (Forall (bounded_consequent lo hi)
            (on_variable k (FuzzyRule._cons self))) as Hon.
  { rewrite Forall_forall in Hcons. apply Forall_forall. intros con Hcon.
    apply Hcons. unfold on_variable in Hcon.
    by apply list_elem_of_filter in Hcon as [_ Hcon]. }
  by eapply implicated_from_bounded.
Qed.

(** ** Interpolation through two and three points *)

(** Each case of a nest of comparisons either contradicts the order of the
    points or is settled by reading the branch. *)
Ltac interp_cases :=
  unfold np.interp, np.at_; simpl;
  repeat (case_decide; simpl);
  try reflexivity; try (exfalso; simpl in *; lia);
  try (exfalso; qc_order).

Lemma interp_ramp (x a b fa fb : Qc) :
  a < b →
  np.interp x [a; b] [fa; fb]
  = Ok (if decide (x ≤ a) then fa
        else if decide (b ≤ x) then fb
        else (fb - fa) / (b - a) * (x - a) + fa).
Proof. intros Hab. interp_cases. Qed.

Lemma interp_triangle (x a b c fa fb fc : Qc) :
  a < b → b < c →
  np.interp x [a; b; c] [fa; fb; fc]
  = Ok (if decide (x ≤ a) then fa
        else if decide (c ≤ x) then fc
        else if decide (x < b) then (fb - fa) / (b - a) * (x - a) + fa
        else if decide (x = b) then fb
        else (fc - fb) / (c - b) * (x - b) + fb).
Proof. intros Hab Hbc. interp_cases. Qed.

Lemma interp_complement (x a b : Qc) :
  np.interp x [a; b] [0; 1] = (λ d, 1 - d) <$> np.interp x [a; b] [1; 0].
Proof.
  unfold np.interp, np.at_; simpl.
  repeat (case_decide; simpl); try (exfalso; simpl in *; lia);
    apply (f_equal Ok); unfold Qcdiv; ring.
Qed.

Lemma differ_nonzero (a b : Qc) : a < b → b - a ≠ 0.
Proof. intros Hab. qc_order. Qed.

Lemma interp_falling (x a b : Qc) :
  a < b → np.interp x [a; b] [1; 0] = Ok (falling a b x).
Proof.
  intros Hab. rewrite interp_ramp by done. unfold falling.
  repeat case_decide; try done. apply (f_equal Ok). field.
  by apply differ_nonzero.
Qed.

Lemma interp_rising (x a b : Qc) :
  a < b → np.interp x [a; b] [0; 1] = Ok (rising a b x).
Proof.
  intros Hab. rewrite interp_ramp by done. unfold rising.
  repeat case_decide; try done. apply (f_equal Ok). field.
  by apply differ_nonzero.
Qed.

Lemma interp_peak (x a b c : Qc) :
  a < b → b < c →
  np.interp x [a; b; c] [0; 1; 0]
  = Ok (if decide (x ≤ b) then rising a b x else falling b c x).
Proof.
  intros Hab Hbc. rewrite interp_triangle by done. unfold rising, falling.
  repeat case_decide; try done; try (exfalso; qc_order);
    apply (f_equal Ok).
  all: field; by apply differ_nonzero.
Qed.


(** What the one-antecedent rule computes. *)
Lemma fuzzify_label_interp lv label is_not x mf :
  ling_values lv !! label = Some mf →
  fuzzify_label lv label is_not x
  = d ← np.interp x (in_values mf) (mf_values mf);
    Ok [if is_not then 1 - d else d].
Proof.
  intros Hmf. unfold fuzzify_label, FuzzyRule.fuzzify. simpl.
  rewrite decide_True by done. unfold dict_getitem. rewrite Hmf. simpl.
  by destruct (np.interp _ _ _).
Qed.

(** ** The three-point builder *)

Lemma ThreePointsLV_lookups lv_name p1 p2 p3 n1 n2 n3 :
  p1 < p2 → p2 < p3 →
  ∃ lv, ThreePointsLV.init lv_name p1 p2 p3 n1 n2 n3 = Ok lv ∧
    name lv = lv_name ∧
    ling_values lv !! n3 = Some (LinPWMF [(p2, 0); (p3, 1)]) ∧
    (n2 ≠ n3 →
     ling_values lv !! n2 = Some (LinPWMF [(p1, 0); (p2, 1); (p3, 0)])) ∧
    (n1 ≠ n2 → n1 ≠ n3 →
     ling_values lv !! n1 = Some (LinPWMF [(p1, 1); (p2, 0)])).
Proof.
  intros H12 H23. unfold ThreePointsLV.init.
  rewrite decide_True by done. eexists. split; [done|].
  unfold LinguisticVariable.init. simpl.
  split_and!; [done| | |].
  - by rewrite lookup_insert_eq.
  - intros ?. rewrite lookup_insert_ne by congruence.
    by rewrite lookup_insert_eq.
  - intros ??. rewrite !lookup_insert_ne by congruence.
    by rewrite lookup_insert_eq.
Qed.

Lemma ThreePointsLV_degrees lv_name p1 p2 p3 n1 n2 n3 :
  p1 < p2 → p2 < p3 → n1 ≠ n2 → n1 ≠ n3 → n2 ≠ n3 →
  ∃ lv, ThreePointsLV.init lv_name p1 p2 p3 n1 n2 n3 = Ok lv ∧
    ∀ x,
      fuzzify_label lv n1 false x = Ok [falling p1 p2 x] ∧
      fuzzify_label lv n2 false x
        = Ok [if decide (x ≤ p2) then rising p1 p2 x else falling p2 p3 x] ∧
      fuzzify_label lv n3 false x = Ok [rising p2 p3 x].
Proof.
  intros H12 H23 Hn12 Hn13 Hn23.
  destruct (ThreePointsLV_lookups lv_name p1 p2 p3 n1 n2 n3 H12 H23)
    as (lv & Hlv & _ & H3 & H2 & H1).
  exists lv. split; [done|]. intros x.
  rewrite (fuzzify_label_interp lv n1 false x _ (H1 Hn12 Hn13)).
  rewrite (fuzzify_label_interp lv n2 false x _ (H2 Hn23)).
  rewrite (fuzzify_label_interp lv n3 false x _ H3).
  simpl. rewrite interp_falling, interp_peak, interp_rising by done.
  done.
Qed.

(** X11: over a dict display, a later entry with the same key replaces an
    earlier one. So the variable built from increasing points always has
    the label [n3] with the rising function, the label [n2] with the peak
    unless [n2] is [n3], and the label [n1] with the falling function
    unless [n1] is one of the other two. *)
Theorem ThreePointsLV_labels (lv_name : string) (p1 p2 p3 : Qc)
    (n1 n2 n3 : string) :
  p1 < p2 → p2 < p3 →
  ∃ lv, ThreePointsLV.init lv_name p1 p2 p3 n1 n2 n3 = Ok lv ∧
    name lv = lv_name ∧
    ling_values lv !! n3 = Some (LinPWMF [(p2, 0); (p3, 1)]) ∧
    (n2 ≠ n3 →
     ling_values lv !! n2 = Some (LinPWMF [(p1, 0); (p2, 1); (p3, 0)])) ∧
    (n1 ≠ n2 → n1 ≠ n3 →
     ling_values lv !! n1 = Some (LinPWMF [(p1, 1); (p2, 0)])) ∧
    ∀ n, is_Some (ling_values lv !! n) ↔ n = n1 ∨ n = n2 ∨ n = n3.
Proof.
  intros H12 H23.
  destruct (ThreePointsLV_lookups lv_name p1 p2 p3 n1 n2 n3 H12 H23)
    as (lv & Hlv & Hname & H3 & H2 & H1).
  exists lv. split_and!; try done.
  unfold ThreePointsLV.init in Hlv. rewrite decide_True in Hlv by done.
  injection Hlv as <-. intros n. simpl.
  rewrite !lookup_insert_is_Some, lookup_empty.
  pose proof (@is_Some_None MF) as Hnone.
  destruct (decide (n3 = n)), (decide (n2 = n)), (decide (n1 = n));
    intuition congruence.
Qed.

(** X12: for increasing points and three different labels, a rule on
    the built variable fuzzifies, outside the slopes, to the stored
    degrees: up to [p1] the first function is 1 and the second 0; from
    [p2] on the first is 0; up to [p2] the third is 0; from [p3] on the
    second is 0 and the third 1. *)
Theorem ThreePointsLV_outside_slopes (lv_name : string) (p1 p2 p3 : Qc)
    (n1 n2 n3 : string) :
  p1 < p2 → p2 < p3 → n1 ≠ n2 → n1 ≠ n3 → n2 ≠ n3 →
  ∃ lv, ThreePointsLV.init lv_name p1 p2 p3 n1 n2 n3 = Ok lv ∧
    ∀ x,
      (x ≤ p1 → fuzzify_label lv n1 false x = Ok [1] ∧
                fuzzify_label lv n2 false x = Ok [0]) ∧
      (p2 ≤ x → fuzzify_label lv n1 false x = Ok [0]) ∧
      (x ≤ p2 → fuzzify_label lv n3 false x = Ok [0]) ∧
      (p3 ≤ x → fuzzify_label lv n2 false x = Ok [0] ∧
                fuzzify_label lv n3 false x = Ok [1]).
Proof.
  intros H12 H23 Hn12 Hn13 Hn23.
  destruct (ThreePointsLV_degrees lv_name p1 p2 p3 n1 n2 n3
              H12 H23 Hn12 Hn13 Hn23) as (lv & Hlv & Hx).
  exists lv. split; [done|]. intros x.
  destruct (Hx x) as (-> & -> & ->). unfold falling, rising.
  split_and!; intros Hle; repeat split;
    repeat case_decide; try done; exfalso; qc_order.
Qed.

Lemma falling_at_start (a b : Qc) : falling a b a = 1.
Proof. unfold falling. by rewrite decide_True. Qed.
Lemma rising_at_start (a b : Qc) : rising a b a = 0.
Proof. unfold rising. by rewrite decide_True. Qed.
Lemma falling_at_end (a b : Qc) : a < b → falling a b b = 0.
Proof.
  intros Hab. unfold falling.
  rewrite decide_False by (by apply Qclt_not_le). by rewrite decide_True.
Qed.
Lemma rising_at_end (a b : Qc) : a < b → rising a b b = 1.
Proof.
  intros Hab. unfold rising.
  rewrite decide_False by (by apply Qclt_not_le). by rewrite decide_True.
Qed.

(** X13: the docstring of [ThreePointsLV] at its three points: at [p1]
    the first function is 1 and the second 0; at [p2] the first and the
    third are 0 and the second is 1; at [p3] the second is 0 and the
    third 1. *)
Theorem ThreePointsLV_at_points (lv_name : string) (p1 p2 p3 : Qc)
    (n1 n2 n3 : string) :
  p1 < p2 → p2 < p3 → n1 ≠ n2 → n1 ≠ n3 → n2 ≠ n3 →
  ∃ lv, ThreePointsLV.init lv_name p1 p2 p3 n1 n2 n3 = Ok lv ∧
    fuzzify_label lv n1 false p1 = Ok [1] ∧
    fuzzify_label lv n2 false p1 = Ok [0] ∧
    fuzzify_label lv n1 false p2 = Ok [0] ∧
    fuzzify_label lv n2 false p2 = Ok [1] ∧
    fuzzify_label lv n3 false p2 = Ok [0] ∧
    fuzzify_label lv n2 false p3 = Ok [0] ∧
    fuzzify_label lv n3 false p3 = Ok [1].
Proof.
  intros H12 H23 Hn12 Hn13 Hn23.
  destruct (ThreePointsLV_degrees lv_name p1 p2 p3 n1 n2 n3
              H12 H23 Hn12 Hn13 Hn23) as (lv & Hlv & Hx).
  exists lv. split; [done|].
  destruct (Hx p1) as (-> & -> & _), (Hx p2) as (-> & -> & ->),
    (Hx p3) as (_ & -> & ->).
  assert (p1 ≤ p2) by by apply Qclt_le_weak.
  assert (¬ p3 ≤ p2) by by apply Qclt_not_le.
  rewrite !decide_True, decide_False by done.
  rewrite !falling_at_start, !rising_at_start,
    !falling_at_end, !rising_at_end by done.
  done.
Qed.


(** ** The two-point builder *)

Lemma TwoPointsPDLV_lookups lv_name p d n1 n2 :
  ∃ lv, TwoPointsPDLV.init lv_name p d n1 n2 = Ok lv ∧
    name lv = lv_name ∧
    ling_values lv !! n2 = Some (LinPWMF [(p, 0); (p + d, 1)]) ∧
    (n1 ≠ n2 → ling_values lv !! n1 = Some (LinPWMF [(p, 1); (p + d, 0)])).
Proof.
  eexists. split; [done|]. unfold LinguisticVariable.init. simpl.
  split_and!; [done| |].
  - by rewrite lookup_insert_eq.
  - intros ?. rewrite lookup_insert_ne by congruence.
    by rewrite lookup_insert_eq.
Qed.


(** X16: when the two stored points are increasing ([p < p + d]) and the
    labels differ, a rule on the built variable fuzzifies, outside the
    slope, to the stored degrees: up to [p] the first function is 1 and
    the second 0, as the docstring says of [p]; from [p + d] on the first
    is 0 and the second 1. *)
Theorem TwoPointsPDLV_outside_slope (lv_name : string) (p d : Qc)
    (n1 n2 : string) :
  p < p + d → n1 ≠ n2 →
  ∃ lv, TwoPointsPDLV.init lv_name p d n1 n2 = Ok lv ∧
    ∀ x,
      (x ≤ p → fuzzify_label lv n1 false x = Ok [1] ∧
               fuzzify_label lv n2 false x = Ok [0]) ∧
      (p + d ≤ x → fuzzify_label lv n1 false x = Ok [0] ∧
                   fuzzify_label lv n2 false x = Ok [1]).
Proof.
  intros Hp Hn.
  destruct (TwoPointsPDLV_lookups lv_name p d n1 n2)
    as (lv & Hlv & _ & H2 & H1).
  exists lv. split; [done|]. intros x.
  rewrite (fuzzify_label_interp lv n1 _ x _ (H1 Hn)).
  rewrite (fuzzify_label_interp lv n2 _ x _ H2). simpl.
  rewrite interp_falling, interp_rising by done. simpl.
  unfold falling, rising.
  split; intros Hle; split; repeat case_decide; try done; exfalso; qc_order.
Qed.

(** X17: with the distance 0, which the builder accepts, both functions
    are steps at [p]: the first is 1 below [p] and 0 from [p] on, the
    second the opposite. At [p] itself the first is 0 and the second 1,
    the opposite of what the docstring says of [p]. *)
Theorem TwoPointsPDLV_zero_distance_steps (lv_name : string) (p : Qc)
    (n1 n2 : string) :
  n1 ≠ n2 →
  ∃ lv, TwoPointsPDLV.init lv_name p 0 n1 n2 = Ok lv ∧
    (∀ x, fuzzify_label lv n1 false x
            = Ok [if decide (x < p) then 1 else 0] ∧
          fuzzify_label lv n2 false x
            = Ok [if decide (x < p) then 0 else 1]) ∧
    fuzzify_label lv n1 false p = Ok [0] ∧
    fuzzify_label lv n2 false p = Ok [1].
Proof.
  intros Hn.
  destruct (TwoPointsPDLV_lookups lv_name p 0 n1 n2)
    as (lv & Hlv & _ & H2 & H1).
  exists lv. split; [done|].
  assert (∀ x, fuzzify_label lv n1 false x
                 = Ok [if decide (x < p) then 1 else 0] ∧
               fuzzify_label lv n2 false x
                 = Ok [if decide (x < p) then 0 else 1]) as Hx.
  { intros x. rewrite (fuzzify_label_interp lv n1 _ x _ (H1 Hn)).
    rewrite (fuzzify_label_interp lv n2 _ x _ H2). simpl.
    rewrite Qcplus_0_r.
    pose proof (interp_singleton_step p x) as Hstep. simpl in Hstep.
    pose proof (interp_complement x p p) as Hc. rewrite Hstep in Hc.
    rewrite Hstep.
    destruct (np.interp x [p; p] [1; 0]) as [low|]; [|done].
    simpl in Hc. injection Hc as Hc. simpl. split; [|done].
    assert (low = if decide (x < p) then 1 else 0) as ->; [|done].
    case_decide; qc_order. }
  split; [done|]. destruct (Hx p) as [-> ->].
  rewrite !decide_False; [done| |]; by apply Qcle_not_lt.
Qed.

(** ** The built-in min on pairs *)

Lemma py_min_pair (a b : Qc) : py_min [a; b] = if decide (b < a) then b else a.
Proof. reflexivity. Qed.

Lemma py_min_comm (a b : Qc) : py_min [a; b] = py_min [b; a].
Proof. rewrite !py_min_pair. repeat case_decide; try done; qc_order. Qed.

Lemma py_min_assoc (a b c : Qc) :
  py_min [py_min [a; b]; c] = py_min [a; py_min [b; c]].
Proof. rewrite !py_min_pair. repeat case_decide; try done; qc_order. Qed.

Lemma py_min_within (lo hi a b : Qc) :
  within lo hi a → within lo hi b → within lo hi (py_min [a; b]).
Proof. intros Ha Hb. rewrite py_min_pair. by case_decide. Qed.

(** ** The further theorems at the examples *)

(** The entry of [temperature] meets the unknown label [warm]. *)
Lemma fuzzify_missing_label_KeyError_at_warm :
  FuzzyRule.fuzzify MoreExamples.unknown_label [("temperature", num 18)]
  = Raise KeyError.
Proof.
  apply (fuzzify_missing_label_KeyError MoreExamples.unknown_label [] []
    (Antecedent.init Examples.temperature "warm" false) "temperature"
    (num 18) [] []).
  - reflexivity.
  - unfold mentions. by inversion 1.
  - reflexivity.
  - reflexivity.
Defined.

(** The second consequent has the unknown label [medium]. *)
Lemma implicate_missing_label_KeyError_at_medium :
  FuzzyRule.implicate MoreExamples.unknown_consequent (frac 6 10)
  = Raise KeyError.
Proof.
  apply (implicate_missing_label_KeyError MoreExamples.unknown_consequent
    (frac 6 10) [Consequent.init Examples.power "low"] []
    (Consequent.init Examples.power "medium")).
  - reflexivity.
  - repeat constructor. eexists. reflexivity.
  - reflexivity.
Defined.

(** Only [wind] is given, which the rule does not mention. *)
Lemma fuzzify_then_activate_IndexError_at_wind :
  FuzzyRule.fuzzify Examples.sunny_and_cold [("wind", num 3)] = Ok [] ∧
  FuzzyRule.fuzzify Examples.sunny_and_cold [("wind", num 3)]
    ≫= FuzzyRule.activate Examples.sunny_and_cold
  = Raise IndexError.
Proof.
  apply (fuzzify_then_activate_IndexError Examples.sunny_and_cold
    [("wind", num 3)]).
  repeat constructor. simpl. unfold mentions. intros Hm.
  apply Exists_cons in Hm as [Hm|Hm]; [done|].
  apply Exists_cons in Hm as [Hm|Hm]; [done|]. by inversion Hm.
Defined.

(** [IF (temperature is NOT high), THEN (power is low)] reads like the
    rule without the negation, with [max] for [min], and with a [power]
    whose [low] is another function. *)
Lemma repr_hides_negation_at_not_hot :
  FuzzyRule__repr__
    (FuzzyRule.init [Antecedent.init Examples.temperature "high" true]
       (py_min, "AND_min") [Consequent.init Examples.power "low"]
       (py_min, "min"))
  = FuzzyRule__repr__
      (FuzzyRule.init [Antecedent.init Examples.temperature "high" false]
         (py_max, "AND_min")
         [Consequent.init (Examples.two_points "power" 0 1) "low"]
         (py_max, "max")).
Proof.
  apply (repr_hides_negation
    [Antecedent.init Examples.temperature "high" true]
    [Antecedent.init Examples.temperature "high" false]
    [Consequent.init Examples.power "low"]
    [Consequent.init (Examples.two_points "power" 0 1) "low"]
    "AND_min" py_min py_max (py_min, "min") (py_max, "max")).
  - repeat constructor.
  - repeat constructor.
Defined.

(** The text of the rule [temperature is NOT high]. *)
Example repr_not_hot :
  FuzzyRule__repr__ Examples.not_hot = "IF (temperature is high), THEN ()".
Proof. reflexivity. Qed.

(** The text of a rule with two antecedents, and of one with two
    consequents. *)
Example repr_samples :
  FuzzyRule__repr__ Examples.sunny_and_cold
    = "IF (sunshine is high AND_min temperature is low), THEN ()" ∧
  FuzzyRule__repr__ Examples.two_on_power
    = "IF (), THEN (power is low , power is high)".
Proof. split; reflexivity. Qed.

(** The rule [level is five] on [SingletonMF(5)], at 6. *)
Lemma fuzzify_singleton_is_step_at_level :
  FuzzyRule.fuzzify (rule_on Examples.level "five" false) [("level", num 6)]
  = Ok [let step := if decide (num 6 < num 5) then 0 else 1 in
        if false then 1 - step else step].
Proof.
  refine (proj1 (fuzzify_singleton_is_step Examples.level "five" false
    (num 5) (num 6) _)).
  reflexivity.
Defined.

(** [min] on three degrees, in two orders. *)
Lemma activate_order_independent_at_min :
  FuzzyRule.activate Examples.level_rule [frac 2 10; frac 9 10; frac 5 10]
  = FuzzyRule.activate Examples.level_rule [frac 5 10; frac 2 10; frac 9 10].
Proof.
  apply (activate_order_independent Examples.level_rule).
  - apply py_min_comm.
  - apply py_min_assoc.
  - symmetry.
    apply (Permutation_cons_append [frac 2 10; frac 9 10] (frac 5 10)).
Defined.

(** [min] on three degrees of [[0, 1]]. *)
Lemma activate_within_at_min :
  ∃ r, FuzzyRule.activate Examples.level_rule
         [frac 2 10; frac 9 10; frac 5 10] = Ok r ∧
       within 0 1 r.
Proof.
  apply (activate_within Examples.level_rule).
  - apply py_min_within.
  - done.
  - repeat constructor; by_evaluation.
Defined.

(** Two antecedents on different variables, both given. *)
Lemma fuzzify_one_degree_per_antecedent_at_weather :
  ∃ out, FuzzyRule.fuzzify Examples.sunny_and_cold MoreExamples.weather
           = Ok out ∧
         length out = 2%nat.
Proof.
  apply (fuzzify_one_degree_per_antecedent Examples.sunny_and_cold
    MoreExamples.weather).
  - repeat constructor; eexists; (split; [reflexivity|]); by split.
  - by_evaluation.
  - by_evaluation.
  - by_evaluation.
Defined.

(** [min] with the activation 0.6 keeps the degrees of [power] in
    [[0, 1]]. *)
Lemma implicate_keeps_bounds_at_power :
  ∃ m, FuzzyRule.implicate Examples.two_on_power (frac 6 10) = Ok m ∧
    ∀ k l, m !! k = Some l →
      Forall (λ mf', sampled mf' ∧ Forall (within 0 1) (mf_values mf')) l.
Proof.
  apply (implicate_keeps_bounds Examples.two_on_power (frac 6 10) 0 1).
  - intros d Hd. apply py_min_within; [done|]. split; by_evaluation.
  - repeat constructor; eexists; (split; [reflexivity|]);
      (split; [by split|]); repeat constructor; by_evaluation.
Defined.

(** [ThreePointsLV("T", 0, 10, 20)] with the default labels. *)
Lemma ThreePointsLV_labels_at_T :
  ∃ lv, ThreePointsLV.init "T" 0 (num 10) (num 20) "low" "medium" "high"
          = Ok lv ∧
        name lv = "T" ∧
        ling_values lv !! "high"
          = Some (LinPWMF [(num 10, 0); (num 20, 1)]).
Proof.
  destruct (ThreePointsLV_labels "T" 0 (num 10) (num 20)
              "low" "medium" "high") as (lv & Hlv & Hname & H3 & _).
  - by_evaluation.
  - by_evaluation.
  - exists lv. by split_and!.
Defined.

Lemma ThreePointsLV_outside_slopes_at_T :
  ∃ lv, ThreePointsLV.init "T" 0 (num 10) (num 20) "low" "medium" "high"
          = Ok lv ∧
        fuzzify_label lv "low" false (num (-3)) = Ok [1] ∧
        fuzzify_label lv "high" false (num 25) = Ok [1] ∧
        fuzzify_label lv "low" false (num 15) = Ok [0].
Proof.
  destruct (ThreePointsLV_outside_slopes "T" 0 (num 10) (num 20)
              "low" "medium" "high") as (lv & Hlv & Hx).
  - by_evaluation.
  - by_evaluation.
  - done.
  - done.
  - done.
  - exists lv. split; [done|]. split_and!.
    + apply (Hx (num (-3))). by_evaluation.
    + apply (Hx (num 25)). by_evaluation.
    + apply (Hx (num 15)). by_evaluation.
Defined.

Lemma ThreePointsLV_at_points_at_T :
  ∃ lv, ThreePointsLV.init "T" 0 (num 10) (num 20) "low" "medium" "high"
          = Ok lv ∧
        fuzzify_label lv "low" false 0 = Ok [1] ∧
        fuzzify_label lv "medium" false (num 10) = Ok [1] ∧
        fuzzify_label lv "high" false (num 20) = Ok [1].
Proof.
  destruct (ThreePointsLV_at_points "T" 0 (num 10) (num 20)
              "low" "medium" "high")
    as (lv & Hlv & H1 & _ & _ & H2 & _ & _ & H3).
  - by_evaluation.
  - by_evaluation.
  - done.
  - done.
  - done.
  - exists lv. by split_and!.
Defined.


(** The spec's samples of the three-point builder, evaluated. *)
Example ThreePointsLV_samples :
  (lv ← ThreePointsLV.init "T" 0 (num 10) (num 20) "low" "medium" "high";
   fuzzify_label lv "low" false (num 10)) = Ok [0] ∧
  (lv ← ThreePointsLV.init "T" 0 (num 10) (num 20) "low" "medium" "high";
   fuzzify_label lv "high" false (num 10)) = Ok [0] ∧
  (lv ← ThreePointsLV.init "T" 0 (num 10) (num 20) "low" "medium" "high";
   fuzzify_label lv "medium" false (num 5)) = Ok [frac 1 2].
Proof. by_evaluation. Qed.


(** [TwoPointsPDLV("T", 10, 10)]. *)
Lemma TwoPointsPDLV_outside_slope_at_T :
  ∃ lv, TwoPointsPDLV.init "T" (num 10) (num 10) "low" "high" = Ok lv ∧
        fuzzify_label lv "low" false (num 10) = Ok [1] ∧
        fuzzify_label lv "high" false (num 10) = Ok [0] ∧
        fuzzify_label lv "low" false (num 30) = Ok [0] ∧
        fuzzify_label lv "high" false (num 30) = Ok [1].
Proof.
  destruct (TwoPointsPDLV_outside_slope "T" (num 10) (num 10) "low" "high")
    as (lv & Hlv & Hx).
  - by_evaluation.
  - done.
  - exists lv. split; [done|].
    destruct (Hx (num 10)) as [[Hlow Hhigh] _]; [by_evaluation|].
    destruct (Hx (num 30)) as [_ [Hlow' Hhigh']]; [by_evaluation|].
    by split_and!.
Defined.

(** [TwoPointsPDLV("T", 10, 0)]. *)
Lemma TwoPointsPDLV_zero_distance_steps_at_T :
  ∃ lv, TwoPointsPDLV.init "T" (num 10) 0 "low" "high" = Ok lv ∧
        fuzzify_label lv "low" false (num 10) = Ok [0] ∧
        fuzzify_label lv "high" false (num 10) = Ok [1].
Proof.
  destruct (TwoPointsPDLV_zero_distance_steps "T" (num 10) "low" "high")
    as (lv & Hlv & _ & Hlow & Hhigh).
  - done.
  - exists lv. by split_and!.
Defined.
